(** * CaDaBot: a shallow embedding of [cadabot.py]

    The bot watches the new submissions and comments of a subreddit, wishes
    authors a happy cake day on the anniversary of their account, answers
    thank-you replies, and purges its store once a day.

    Modelling conventions.
    - The store [db] (a [SqliteDict] with autocommit) is a [gmap] from user
      names to records; reading a key yields a copy, so a record only changes
      through an explicit assignment [db[k] = v].
    - Effects are threaded through a state-and-exception monad [M]: the world
      holds the store, the chronological trace of observable actions (log
      lines, calls of [post.reply], calls of [time.sleep]) and the draws of
      [random.choice].
    - [datetime] values follow CPython's [datetime] module ([_ord2ymd],
      [_check_date_fields]); timestamps are whole seconds since the epoch.
    - What the program takes from its environment is a record
      [Environment]: Python's [str.lower], the sentiment analyser, what the
      installed [inflect] makes of a negative number, the posting action,
      and the number of nested calls the interpreter's recursion limit
      admits.  What PRAW fetches lazily ([post.parent()], [post.replies]
      after [post.refresh()]) is carried by the post value.
    - A string is the UTF-8 encoding of a Python [str].  The needle "thank"
      is ASCII, and no byte of an ASCII character occurs inside the encoding
      of another character, so the byte-wise substring test is the test
      [in] makes on code points. *)

From Stdlib Require Import ZArith Floats DecimalString String Ascii Lia Permutation Sorted.
From stdpp Require Import gmap strings list fin_maps.

Open Scope string_scope.
Open Scope Z_scope.

(** ** Exceptions and results *)

(** The exceptions of the program and its libraries.  [TimestampError t]
    stands for what [utcfromtimestamp] raises on a timestamp [t] it cannot
    represent: [ValueError] (year out of range), [OverflowError] or
    [OSError], by the size of [t] and the platform; the program tells none
    of the three from another. *)
Inductive exn :=
| AssertionError
| ValueError
| TypeError
| AttributeError
| KeyError
| KeyboardInterrupt
| RecursionError
| TimestampError (t : Z)
| FeedError (msg : string).

(** [except Exception] catches everything but [KeyboardInterrupt], which
    derives from [BaseException] only. *)
Definition is_Exception (e : exn) : bool :=
  match e with
  | KeyboardInterrupt => false
  | _ => true
  end.

Inductive result (A : Type) :=
| Ok (a : A)
| Raise (e : exn).
Arguments Ok {A} a.
Arguments Raise {A} e.

(** ** Calendar arithmetic of the [datetime] module *)

Module Calendar.

Definition MINYEAR : Z := 1.
Definition MAXYEAR : Z := 9999.

Definition _is_leap (year : Z) : bool :=
(year mod 4 =? 0) && (negb (year mod 100 =? 0) || (year mod 400 =? 0)).

Definition _DAYS_IN_MONTH (month : Z) : Z :=
match month with
| 1 => 31 | 2 => 28 | 3 => 31 | 4 => 30 | 5 => 31 | 6 => 30
| 7 => 31 | 8 => 31 | 9 => 30 | 10 => 31 | 11 => 30 | 12 => 31
| _ => -1
end.

Definition _DAYS_BEFORE_MONTH (month : Z) : Z :=
match month with
| 1 => 0 | 2 => 31 | 3 => 59 | 4 => 90 | 5 => 120 | 6 => 151
| 7 => 181 | 8 => 212 | 9 => 243 | 10 => 273 | 11 => 304 | 12 => 334
| _ => -1
end.

Definition _days_in_month (year month : Z) : Z :=
if (month =? 2) && _is_leap year then 29 else _DAYS_IN_MONTH month.

Definition _DI400Y : Z := 146097.
Definition _DI100Y : Z := 36524.
Definition _DI4Y : Z := 1461.

(** Ordinal to (year, month, day), with 0001-01-01 as day 1. *)
Definition _ord2ymd (n : Z) : Z * Z * Z :=
let n := n - 1 in
let n400 := n / _DI400Y in
let n := n mod _DI400Y in
let year := n400 * 400 + 1 in
let n100 := n / _DI100Y in
let n := n mod _DI100Y in
let n4 := n / _DI4Y in
let n := n mod _DI4Y in
let n1 := n / 365 in
let n := n mod 365 in
let year := year + n100 * 100 + n4 * 4 + n1 in
if (n1 =? 4) || (n100 =? 4) then (year - 1, 12, 31)
else
  let leapyear := (n1 =? 3) && (negb (n4 =? 24) || (n100 =? 3)) in
  let month := Z.shiftr (n + 50) 5 in
  let preceding :=
    _DAYS_BEFORE_MONTH month + (if (2 <? month) && leapyear then 1 else 0) in
  if n <? preceding then
    let month := month - 1 in
    let preceding :=
      preceding
      - (_DAYS_IN_MONTH month + (if (month =? 2) && leapyear then 1 else 0)) in
    (year, month, n - preceding + 1)
  else (year, month, n - preceding + 1).

Record datetime := mkdatetime {
year : Z;
month : Z;
day : Z;
hour : Z;
minute : Z;
second : Z
}.

(** [dt.date()]: the calendar date of a [datetime]. *)
Definition date (dt : datetime) : Z * Z * Z := (year dt, month dt, day dt).

Definition date_eqb (d1 d2 : Z * Z * Z) : bool :=
match d1, d2 with
| (y1, m1, dd1), (y2, m2, dd2) => (y1 =? y2) && (m1 =? m2) && (dd1 =? dd2)
end.

(** [_check_date_fields]: the constructor of [datetime] refuses a year
  outside [MINYEAR..MAXYEAR], a month outside [1..12] and a day the month
  does not have in that year. *)
Definition _check_date_fields (y m d : Z) : bool :=
(MINYEAR <=? y) && (y <=? MAXYEAR)
&& (1 <=? m) && (m <=? 12)
&& (1 <=? d) && (d <=? _days_in_month y m).

(** Ordinal of 1970-01-01. *)
Definition _EPOCH_ORD : Z := 719163.

(** [datetime.utcfromtimestamp(t)] for a whole number of seconds, on a
    platform whose [gmtime] covers the years of [datetime]; it raises when
    the year falls outside [MINYEAR..MAXYEAR], with an exception whose
    class depends on how far outside. *)
Definition utcfromtimestamp (t : Z) : result datetime :=
let days := t / 86400 in
let secs := t mod 86400 in
match _ord2ymd (days + _EPOCH_ORD) with
| (y, m, d) =>
    if (MINYEAR <=? y) && (y <=? MAXYEAR)
    then Ok (mkdatetime y m d (secs / 3600) (secs mod 3600 / 60) (secs mod 60))
    else Raise (TimestampError t)
end.

(** [dt.replace(year=y)] builds a new [datetime] and so re-validates the
  date: February 29 has no counterpart in a common year. *)
Definition replace_year (dt : datetime) (y : Z) : result datetime :=
if _check_date_fields y (month dt) (day dt)
then Ok (mkdatetime y (month dt) (day dt) (hour dt) (minute dt) (second dt))
else Raise ValueError.

(** A well-formed [datetime] value, as every [datetime] object is. *)
Definition valid_datetime (dt : datetime) : Prop :=
_check_date_fields (year dt) (month dt) (day dt) = true.

End Calendar.
Import Calendar.

(** ** Strings *)

Definition ascii_lower (c : ascii) : ascii :=
  let n := nat_of_ascii c in
  if (Nat.leb 65 n && Nat.leb n 90)%bool then ascii_of_nat (n + 32) else c.

(** [s.lower()] for a text of ASCII characters, on which it is what
    Python's [str.lower] computes; the program itself is given [str.lower]
    by its environment. *)
Fixpoint lower_ascii (s : string) : string :=
  match s with
  | EmptyString => EmptyString
  | String c t => String (ascii_lower c) (lower_ascii t)
  end.

(** [needle in hay]. *)
Fixpoint contains (needle hay : string) : bool :=
  String.prefix needle hay
  || match hay with
     | EmptyString => false
     | String _ t => contains needle t
     end.

(** [s[:-2]] and [s[-2:]]. *)
Definition slice_to_minus2 (s : string) : string :=
  substring 0 (String.length s - 2) s.
Definition slice_from_minus2 (s : string) : string :=
  substring (String.length s - 2) 2 s.

(** [str(n)] for an [int]. *)
Definition str_of_int (n : Z) : string := NilZero.string_of_int (Z.to_int n).

(** Whether an optional value is present. *)
Definition isSome {A} (o : option A) : bool :=
  match o with
  | Some _ => true
  | None => false
  end.

(** ** The [inflect] engine's [ordinal] on an [int] *)

Definition nth_suffix (n : Z) : option string :=
  match n with
  | 0 => Some "th" | 1 => Some "st" | 2 => Some "nd" | 3 => Some "rd"
  | 4 => Some "th" | 5 => Some "th" | 6 => Some "th" | 7 => Some "th"
  | 8 => Some "th" | 9 => Some "th"
  | 11 => Some "th" | 12 => Some "th" | 13 => Some "th"
  | _ => None
  end.

(** [p.ordinal(num)] for an [int].  For a number that is not negative the
    suffix is looked up under [num % 100] and, failing that, under
    [num % 10].  What a negative number gives depends on the version of
    [inflect] installed (one raises [TypeError], another returns a text such
    as "-6th"), and the program pins none: it is [negative num]. *)
Definition ordinal (negative : Z -> result string) (num : Z) : result string :=
  if 0 <=? num then
    match nth_suffix (num mod 100) with
    | Some post => Ok (str_of_int num +:+ post)
    | None =>
        match nth_suffix (num mod 10) with
        | Some post => Ok (str_of_int num +:+ post)
        | None => Raise KeyError
        end
    end
  else negative num.

(** ** Data model *)

Module Redditor.
(** [is_suspended] is [None] when the attribute is absent. *)
Record t := mk {
  name : string;
  created_utc : Z;
  is_suspended : option bool
}.
End Redditor.

(** The value stored under a user name:
    [{"created_utc": ..., "years_wished_cakeday": [...]}]. *)
Module Status.
Record t := mk {
  created_utc : Z;
  years_wished_cakeday : list Z
}.
End Status.

(** A submission or a comment.  An author of [None] is a deleted account.
    A comment carries what [parent()] resolves to and the authors of the
    replies [refresh()] loads. *)
Inductive Post :=
| Submission (author : option Redditor.t) (created_utc : Z)
| Comment (author : option Redditor.t) (created_utc : Z) (body : string)
          (parent : Post) (replies : list (option Redditor.t)).

Definition post_author (post : Post) : option Redditor.t :=
  match post with
  | Submission a _ => a
  | Comment a _ _ _ _ => a
  end.

Definition post_created_utc (post : Post) : Z :=
  match post with
  | Submission _ t => t
  | Comment _ t _ _ _ => t
  end.

(** [redditor == "name"]: PRAW compares the names lower-cased by
    [str.lower], here [lower]; [None] equals no string. *)
Definition redditor_eq_str (lower : string -> string) (a : option Redditor.t)
    (s : string) : bool :=
  match a with
  | Some r => String.eqb (lower (Redditor.name r)) (lower s)
  | None => false
  end.

(** [a == b] on authors. *)
Definition redditor_eq (lower : string -> string) (a b : option Redditor.t) : bool :=
  match a, b with
  | Some x, Some y => String.eqb (lower (Redditor.name x)) (lower (Redditor.name y))
  | None, None => true
  | _, _ => false
  end.

(** The [float] the literal [0.4] denotes. *)
Definition float_0_4 : float := 0x1.999999999999ap-2%float.

(** The scores of [SentimentIntensityAnalyzer.polarity_scores]. *)
Record Polarity := mkPolarity {
  neg : float;
  neu : float;
  pos : float;
  compound : float
}.

Inductive Level := DEBUG | INFO | WARNING | ERROR.

Inductive Message :=
| ClearingOldEntries
| CurrentlyEntries (n : nat)
| EntriesRemaining (n : nat)
| FoundCakeDay (name : string) (cakeday : datetime)
| Link (permalink : string)
| ReplyingToThankYou (author : option Redditor.t)
| Running (sub : string)
| SleepingFor16Minutes (tnow : datetime)
| SuspendedUser
| Seen (sub : string) (post : Post) (time_posted : datetime)
| Retrying (e : exn)
| Caught (e : exn).

(** What the program does, in order: log lines, calls of [post.reply], calls
    of [time.sleep], and entries into [run_with_exception_handling] with the
    number of its invocations then on the call stack. *)
Inductive Event :=
| Log (level : Level) (msg : Message)
| Reply (target : Post) (text : string)
| Sleep (seconds : Z)
| Enter (active : nat).

(** What the program is given by the interpreter, its libraries and Reddit.
    - [str_lower]: Python's [str.lower], which lower-cases every cased
      character of Unicode.
    - [polarity_scores]: [sia.polarity_scores].
    - [ordinal_negative]: [p.ordinal] on a negative [int].
    - [post_reply]: [post.reply]; it returns the permalink of the response
      or raises.
    - [nesting_limit]: the number of invocations of
      [run_with_exception_handling], each inside the handler of the one
      before, that fit under the interpreter's recursion limit; the call
      that would exceed it raises [RecursionError]. *)
Record Environment := mkEnvironment {
  str_lower : string -> string;
  polarity_scores : string -> Polarity;
  ordinal_negative : Z -> result string;
  post_reply : Post -> string -> result string;
  nesting_limit : nat
}.

Record World := mkWorld {
  db : gmap string Status.t;
  trace : list Event;
  entropy : list nat
}.

(** ** The state-and-exception monad *)

Definition M (A : Type) : Type := World -> result A * World.

#[global] Instance M_ret : MRet M := fun A a w => (Ok a, w).
#[global] Instance M_bind : MBind M := fun A B f m w =>
  match m w with
  | (Ok a, w') => f a w'
  | (Raise e, w') => (Raise e, w')
  end.

Definition raise {A} (e : exn) : M A := fun w => (Raise e, w).

Definition lift {A} (r : result A) : M A := fun w => (r, w).

Definition emit (e : Event) : M unit := fun w =>
  (Ok tt, mkWorld (db w) (trace w ++ [e]) (entropy w)).

Definition logger (level : Level) (msg : Message) : M unit := emit (Log level msg).

Definition sleep (seconds : Z) : M unit := emit (Sleep seconds).

(** [db.get(k, None)]. *)
Definition db_get (k : string) : M (option Status.t) := fun w => (Ok (db w !! k), w).

(** [db[k]]. *)
Definition db_getitem (k : string) : M Status.t := fun w =>
  match db w !! k with
  | Some v => (Ok v, w)
  | None => (Raise KeyError, w)
  end.

(** [db[k] = v]. *)
Definition db_setitem (k : string) (v : Status.t) : M unit := fun w =>
  (Ok tt, mkWorld (<[k := v]> (db w)) (trace w) (entropy w)).

(** [del db[k]]. *)
Definition db_delitem (k : string) : M unit := fun w =>
  match db w !! k with
  | Some _ => (Ok tt, mkWorld (delete k (db w)) (trace w) (entropy w))
  | None => (Raise KeyError, w)
  end.

(** [list(db.items())] and [len(db)]. *)
Definition db_items : M (list (string * Status.t)) := fun w => (Ok (map_to_list (db w)), w).
Definition db_len : M nat := fun w => (Ok (size (db w)), w).

(** [random.choice(options)] for a non-empty list: the next draw, reduced
    modulo the length; the first option when the draws are used up. *)
Definition random_choice {A} (options : list A) (default : A) : M A := fun w =>
  match entropy w with
  | [] => (Ok (nth 0 options default), w)
  | k :: rest =>
      (Ok (nth (k mod length options)%nat options default),
       mkWorld (db w) (trace w) rest)
  end.

(** [try: body except ... as e: handler e]. *)
Definition try_except {A} (body : M A) (handler : exn -> M A) : M A := fun w =>
  match body w with
  | (Raise e, w') => handler e w'
  | r => r
  end.

(** [@logger.catch]: an [Exception] leaving the function is logged and
    swallowed; the call then returns [None]. *)
Definition logger_catch (body : M unit) : M unit :=
  try_except body (fun e =>
    if is_Exception e then logger ERROR (Caught e) else raise e).

(** A [for] loop whose body may raise. *)
Fixpoint for_each {A} (l : list A) (body : A -> M unit) : M unit :=
  match l with
  | [] => mret tt
  | x :: rest => body x ;; for_each rest body
  end.

(** ** The program *)

(** [results.sort(key=..., reverse=True)]: the sort is stable, also when
    reversed, so an element is placed before those of the rest whose key is
    not greater. *)
Section Sort.
Context {A : Type} (key : A -> Z).

Fixpoint insert_reverse (x : A) (l : list A) : list A :=
  match l with
  | [] => [x]
  | y :: t => if key x <? key y then y :: insert_reverse x t else x :: y :: t
  end.

Fixpoint sort_reverse (l : list A) : list A :=
  match l with
  | [] => []
  | x :: t => insert_reverse x (sort_reverse t)
  end.
End Sort.

(** The order of a list sorted by [key] with [reverse=True]. *)
Definition descending {A : Type} (key : A -> Z) (x y : A) : Prop := key y <= key x.

(** [submissions_and_comments(subreddit, **kwargs)], given what
    [subreddit.new] and [subreddit.comments] return. *)
Definition submissions_and_comments (new comments : list Post) : list Post :=
  let results : list Post := [] in
  let results := (results ++ new)%list in
  let results := (results ++ comments)%list in
  sort_reverse post_created_utc results.

Definition cakeday_emojis : list string := ["😄"; "😃"; "🍰"].

Definition choose_cakeday_wish (age_str : string) : M string :=
  emoji ← random_choice cakeday_emojis "";
  mret ("Happy " +:+ age_str +:+ " cake day! " +:+ emoji).

(** [get_cakeday_status(redditor)].  [redditor.name] fails on [None]; a
    stored record is a non-empty dict, so [if user:] holds whenever the key
    is present. *)
Definition get_cakeday_status (redditor : option Redditor.t) : M Status.t :=
  match redditor with
  | None => raise AttributeError
  | Some redditor =>
      let username := Redditor.name redditor in
      user ← db_get username;
      match user with
      | Some user =>
          if Redditor.created_utc redditor =? Status.created_utc user
          then mret user
          else raise AssertionError
      | None =>
          let created_utc := Redditor.created_utc redditor in
          db_setitem username (Status.mk created_utc []);;
          db_getitem username
      end
  end.

(** The first loop of [remove_old_cakedays]: the keys of the records that
    were not created on today's day and month. *)
Fixpoint scan_old_cakedays (today_dm : Z * Z) (items : list (string * Status.t))
    (to_remove : list string) : M (list string) :=
  match items with
  | [] => mret to_remove
  | (k, v) :: rest =>
      t_created ← lift (utcfromtimestamp (Status.created_utc v));
      let created_dm := (day t_created, month t_created) in
      if decide (created_dm ≠ today_dm)
      then scan_old_cakedays today_dm rest (to_remove ++ [k])%list
      else scan_old_cakedays today_dm rest to_remove
  end.

(** [remove_old_cakedays()], with [tnow] what [utcnow()] returns. *)
Definition remove_old_cakedays (tnow : datetime) : M unit :=
  logger INFO ClearingOldEntries;;
  n ← db_len;
  logger INFO (CurrentlyEntries n);;
  let to_remove := [] in
  let today_dm := (day tnow, month tnow) in
  items ← db_items;
  to_remove ← scan_old_cakedays today_dm items to_remove;
  for_each to_remove db_delitem;;
  n ← db_len;
  logger INFO (EntriesRemaining n).

Definition thank_you_options : list string :=
  [ "You're welcome! See you next year! 😄";
    "You're welcome! 🙂 Have a great day!";
    "You're welcome! May the karma gods shine favourably upon you ✨" ].

Section Bot.
Variable env : Environment.

(** [post.reply(text)]: the call is recorded, then it returns or raises. *)
Definition reply (post : Post) (text : string) : M string :=
  emit (Reply post text);;
  lift (post_reply env post text).

Definition post_if_cakeday (post : Post) (tnow : datetime) : M unit :=
  let author := post_author post in
  status ← get_cakeday_status author;
  if bool_decide (year tnow ∈ Status.years_wished_cakeday status) then mret tt
  else
    cakeday ← lift (utcfromtimestamp (Status.created_utc status));
    if year cakeday =? year tnow then mret tt
    else
      cakeday_this_year ← lift (replace_year cakeday (year tnow));
      if date_eqb (date cakeday_this_year) (date tnow) then
        match author with
        | None => raise AttributeError
        | Some author =>
            logger INFO (FoundCakeDay (Redditor.name author) cakeday);;
            let age := year tnow - year cakeday in
            age_ordinal ← lift (ordinal (ordinal_negative env) age);
            let age_str :=
              slice_to_minus2 age_ordinal +:+ "^" +:+ slice_from_minus2 age_ordinal in
            text ← choose_cakeday_wish age_str;
            response ← reply post text;
            let status :=
              Status.mk (Status.created_utc status)
                        (Status.years_wished_cakeday status ++ [year tnow])%list in
            db_setitem (Redditor.name author) status;;
            logger INFO (Link response)
        end
      else mret tt.

Definition post_if_response_to_cakeday_wish (post : Post) (tnow : datetime) : M unit :=
  status ← get_cakeday_status (post_author post);
  cakeday ← lift (utcfromtimestamp (Status.created_utc status));
  cakeday_this_year ← lift (replace_year cakeday (year tnow));
  if negb (date_eqb (date cakeday_this_year) (date tnow)) then mret tt
  else
    match post with
    | Submission _ _ => mret tt
    | Comment author _ body parent replies =>
        if negb (contains "thank" (str_lower env body)) then mret tt
        else
          let polarity := polarity_scores env body in
          if negb (PrimFloat.ltb float_0_4 (pos polarity)
                   && PrimFloat.eqb (neg polarity) 0%float) then mret tt
          else
            if negb (redditor_eq_str (str_lower env) (post_author parent) "CaDaBot")
            then mret tt
            else
              match parent with
              | Submission _ _ => raise AttributeError
              | Comment _ _ _ grandparent _ =>
                  if negb (redditor_eq (str_lower env) (post_author grandparent) author)
                  then mret tt
                  else
                    if existsb (fun r => redditor_eq_str (str_lower env) r "CaDaBot")
                               replies
                    then mret tt
                    else
                      logger INFO (ReplyingToThankYou author);;
                      text ← random_choice thank_you_options "";
                      response ← reply post text;
                      logger INFO (Link response)
              end
    end.

(** One turn of the loop of [run]: the stream hands over a post or the
    [None] marker, or raises. *)
Inductive Pulse :=
| Yield (post : option Post) (tnow : datetime)
| Fault (e : exn).

Definition suspended (author : option Redditor.t) : bool :=
  match author with
  | Some a =>
      match Redditor.is_suspended a with
      | Some b => b
      | None => false
      end
  | None => false
  end.

(** The body of [for post in stream], with [tnow] what [utcnow()] returns. *)
Definition run_item (sub : string) (post : option Post) (tnow : datetime) : M unit :=
  (if (hour tnow =? 23) && (45 <? minute tnow)
   then logger INFO (SleepingFor16Minutes tnow);; sleep (60 * 20)
   else mret tt);;
  match post with
  | None => mret tt
  | Some post =>
      if suspended (post_author post) then logger WARNING SuspendedUser
      else
        time_posted ← lift (utcfromtimestamp (post_created_utc post));
        logger DEBUG (Seen sub post time_posted);;
        if negb (date_eqb (date time_posted) (date tnow)) then mret tt
        else
          match post_author post with
          | None => mret tt
          | Some _ =>
              post_if_cakeday post tnow;;
              post_if_response_to_cakeday_wish post tnow
          end
  end.

(** [run(sub)] over the turns the stream takes. *)
Definition run (sub : string) (stream : list Pulse) : M unit :=
  logger INFO (Running sub);;
  for_each stream (fun pulse =>
    match pulse with
    | Fault e => raise e
    | Yield post tnow => run_item sub post tnow
    end).

(** [run_with_exception_handling(sub)]: [streams] are the streams the
    successive calls of [run] consume, [depth] the number of invocations
    of this function on the call stack, this one included.  The handler
    follows the two [except] clauses; its call of the function itself
    raises [RecursionError] when the recursion limit admits no further
    invocation, and that exception, raised inside the handler, leaves the
    function and is met by [logger.catch].  When no stream is left [run] is
    given the empty one and returns at once. *)
Fixpoint run_with_exception_handling (sub : string) (streams : list (list Pulse))
    (depth : nat) : M unit :=
  logger_catch
    (emit (Enter depth);;
     match streams with
     | [] => run sub []
     | stream :: rest =>
         try_except (run sub stream) (fun E =>
           match E with
           | KeyboardInterrupt => raise KeyboardInterrupt
           | _ =>
               if is_Exception E then
                 logger WARNING (Retrying E);;
                 sleep 60;;
                 if (depth <? nesting_limit env)%nat
                 then run_with_exception_handling sub rest (S depth)
                 else raise RecursionError
               else raise E
           end)
     end).

(** The thread started for a subreddit. *)
Definition worker (sub : string) (streams : list (list Pulse)) : M unit :=
  run_with_exception_handling sub streams 1.
End Bot.

(** ** Observations on a trace *)

(** The calls of [post.reply], oldest first. *)
Fixpoint replies_of (t : list Event) : list (Post * string) :=
  match t with
  | [] => []
  | Reply p s :: t => (p, s) :: replies_of t
  | _ :: t => replies_of t
  end.

(** The calls of [time.sleep], oldest first. *)
Fixpoint sleeps_of (t : list Event) : list Z :=
  match t with
  | [] => []
  | Sleep s :: t => s :: sleeps_of t
  | _ :: t => sleeps_of t
  end.

(** The years already wished to a user; none when the store has no record. *)
Definition years_wished (d : gmap string Status.t) (username : string) : list Z :=
  match d !! username with
  | Some st => Status.years_wished_cakeday st
  | None => []
  end.

(** (day, month) of a stored record's creation time. *)
Definition created_dm (st : Status.t) : option (Z * Z) :=
  match utcfromtimestamp (Status.created_utc st) with
  | Ok t_created => Some (day t_created, month t_created)
  | Raise _ => None
  end.

(** The date of an author's anniversary in the year of [tnow]:
    the creation date with its year replaced. *)
Definition anniversary_date (author : option Redditor.t) (tnow : datetime)
    : option (Z * Z * Z) :=
  match author with
  | None => None
  | Some a =>
      match utcfromtimestamp (Redditor.created_utc a) with
      | Raise _ => None
      | Ok cakeday =>
          match replace_year cakeday (year tnow) with
          | Raise _ => None
          | Ok cakeday_this_year => Some (date cakeday_this_year)
          end
      end
  end.

(** The record stored under an author's name, if any, is the author's own:
    its creation time is the one the content source reports. *)
Definition record_consistent (d : gmap string Status.t) (author : option Redditor.t) : Prop :=
  forall a st, author = Some a -> d !! Redditor.name a = Some st ->
    Status.created_utc st = Redditor.created_utc a.

(** Every year recorded as wished is a year in which the account's
    anniversary exists. *)
Definition wished_years_sound (d : gmap string Status.t) : Prop :=
  forall k st y, d !! k = Some st -> y ∈ Status.years_wished_cakeday st ->
    exists c c', utcfromtimestamp (Status.created_utc st) = Ok c
                 /\ replace_year c y = Ok c'.

(** Every stored creation time is one [datetime] can represent. *)
Definition timestamps_representable (d : gmap string Status.t) : Prop :=
  forall k st, d !! k = Some st -> is_Some (created_dm st).

(** What a post is and links to. *)
Definition is_comment (post : Post) : bool :=
  match post with
  | Comment _ _ _ _ _ => true
  | Submission _ _ => false
  end.

Definition post_body (post : Post) : option string :=
  match post with
  | Comment _ _ body _ _ => Some body
  | Submission _ _ => None
  end.

Definition post_parent (post : Post) : option Post :=
  match post with
  | Comment _ _ _ parent _ => Some parent
  | Submission _ _ => None
  end.

Definition post_replies (post : Post) : list (option Redditor.t) :=
  match post with
  | Comment _ _ _ _ replies => replies
  | Submission _ _ => []
  end.

(** The conditions of a thank-you acknowledgment, one by one. *)
Section ThankYouConditions.
Variable env : Environment.
Variables (post : Post) (tnow : datetime).

Definition anniversary_is_today : Prop :=
  anniversary_date (post_author post) tnow = Some (date tnow).

Definition is_reply : Prop := is_comment post = true.

Definition says_thank : Prop :=
  exists body, post_body post = Some body
    /\ contains "thank" (str_lower env body) = true.

Definition sentiment_positive : Prop :=
  exists body, post_body post = Some body
    /\ PrimFloat.ltb float_0_4 (pos (polarity_scores env body)) = true
    /\ PrimFloat.eqb (neg (polarity_scores env body)) 0%float = true.

Definition parent_by_bot : Prop :=
  exists parent, post_parent post = Some parent
    /\ redditor_eq_str (str_lower env) (post_author parent) "CaDaBot" = true.

Definition grandparent_by_author : Prop :=
  exists parent grandparent,
    post_parent post = Some parent /\ post_parent parent = Some grandparent
    /\ redditor_eq (str_lower env) (post_author grandparent) (post_author post) = true.

Definition no_reply_by_bot : Prop :=
  Forall (fun r => redditor_eq_str (str_lower env) r "CaDaBot" = false)
         (post_replies post).
End ThankYouConditions.

(** The time of day in seconds since midnight, and what a time of day is. *)
Definition seconds_of_day (t : datetime) : Z :=
  hour t * 3600 + minute t * 60 + second t.

Definition valid_time (t : datetime) : Prop :=
  0 <= hour t < 24 /\ 0 <= minute t < 60 /\ 0 <= second t < 60.

(** A restart that is iterative: in every environment and in every run of
    a worker, followed from its start, no worker loop is started by an
    invocation of [run_with_exception_handling] made inside another one. *)
Definition restart_is_iterative : Prop :=
  forall env sub streams store draws depth,
    Enter depth ∈ trace (worker env sub streams (mkWorld store [] draws)).2 ->
    depth = 1%nat.

(** The month and day steps of [_ord2ymd], for day [n] of a year, and the
    check that they yield a date of the calendar. *)
Definition _month_day (n : Z) (leapyear : bool) : Z * Z :=
  let month := Z.shiftr (n + 50) 5 in
  let preceding :=
    _DAYS_BEFORE_MONTH month + (if (2 <? month) && leapyear then 1 else 0) in
  if n <? preceding then
    let month := month - 1 in
    let preceding :=
      preceding
      - (_DAYS_IN_MONTH month + (if (month =? 2) && leapyear then 1 else 0)) in
    (month, n - preceding + 1)
  else (month, n - preceding + 1).

Definition _month_day_ok (n : Z) (leapyear : bool) : bool :=
  let '(m, d) := _month_day n leapyear in
  (1 <=? m) && (m <=? 12) && (1 <=? d)
  && (d <=? (if (m =? 2) && leapyear then 29 else _DAYS_IN_MONTH m)).

(** A computation that keeps the wished years of the store sound, whether
    it returns or raises. *)
Definition keeps_sound {A} (m : M A) : Prop :=
  forall w, wished_years_sound (db w) -> wished_years_sound (db (m w).2).

(** ** The paths through the cake-day detector *)

Section CakedayOutcome.
Variable env : Environment.

(** The outcomes of [post_if_cakeday], by the record it resolves: either
    it stops before the cake-day branch and leaves the world as record
    resolution left it, or it takes the branch. *)
Inductive cakeday_outcome (post : Post) (tnow : datetime) (w0 : World)
    (st : Status.t) : result unit -> World -> Prop :=
| outcome_wished :
    year tnow ∈ Status.years_wished_cakeday st ->
    cakeday_outcome post tnow w0 st (Ok tt) w0
| outcome_unrepresentable e :
    year tnow ∉ Status.years_wished_cakeday st ->
    utcfromtimestamp (Status.created_utc st) = Raise e ->
    cakeday_outcome post tnow w0 st (Raise e) w0
| outcome_first_year c :
    year tnow ∉ Status.years_wished_cakeday st ->
    utcfromtimestamp (Status.created_utc st) = Ok c ->
    year c = year tnow ->
    cakeday_outcome post tnow w0 st (Ok tt) w0
| outcome_no_such_day c e :
    year tnow ∉ Status.years_wished_cakeday st ->
    utcfromtimestamp (Status.created_utc st) = Ok c ->
    year c <> year tnow ->
    replace_year c (year tnow) = Raise e ->
    cakeday_outcome post tnow w0 st (Raise e) w0
| outcome_other_day c c' :
    year tnow ∉ Status.years_wished_cakeday st ->
    utcfromtimestamp (Status.created_utc st) = Ok c ->
    year c <> year tnow ->
    replace_year c (year tnow) = Ok c' ->
    date c' <> date tnow ->
    cakeday_outcome post tnow w0 st (Ok tt) w0
| outcome_no_ordinal c c' a e :
    year tnow ∉ Status.years_wished_cakeday st ->
    utcfromtimestamp (Status.created_utc st) = Ok c ->
    year c <> year tnow ->
    replace_year c (year tnow) = Ok c' ->
    date c' = date tnow ->
    post_author post = Some a ->
    ordinal (ordinal_negative env) (year tnow - year c) = Raise e ->
    cakeday_outcome post tnow w0 st (Raise e)
      (mkWorld (db w0)
         (trace w0 ++ [Log INFO (FoundCakeDay (Redditor.name a) c)])
         (entropy w0))
| outcome_wish c c' a age_ordinal emoji res w' :
    year tnow ∉ Status.years_wished_cakeday st ->
    utcfromtimestamp (Status.created_utc st) = Ok c ->
    year c <> year tnow ->
    replace_year c (year tnow) = Ok c' ->
    date c' = date tnow ->
    post_author post = Some a ->
    ordinal (ordinal_negative env) (year tnow - year c) = Ok age_ordinal ->
    emoji ∈ cakeday_emojis ->
    let text :=
      "Happy " +:+ (slice_to_minus2 age_ordinal +:+ "^" +:+ slice_from_minus2 age_ordinal)
      +:+ " cake day! " +:+ emoji in
    let called :=
      (trace w0 ++ [Log INFO (FoundCakeDay (Redditor.name a) c)]
                ++ [Reply post text])%list in
    match post_reply env post text with
    | Ok permalink =>
        res = Ok tt
        /\ db w' = <[Redditor.name a :=
                       Status.mk (Status.created_utc st)
                         (Status.years_wished_cakeday st ++ [year tnow])]> (db w0)
        /\ trace w' = (called ++ [Log INFO (Link permalink)])%list
    | Raise e => res = Raise e /\ db w' = db w0 /\ trace w' = called
    end ->
    cakeday_outcome post tnow w0 st res w'.
End CakedayOutcome.

(** ** Further observations on stores and turns *)

(** A record after some processing of the record [st]: the creation time is
    the same and the years wished are those of [st], possibly followed by
    more. *)
Definition status_extends (st st' : Status.t) : Prop :=
  Status.created_utc st' = Status.created_utc st
  /\ Status.years_wished_cakeday st `prefix_of` Status.years_wished_cakeday st'.

(** Every record of [d] is still in [d'], extended. *)
Definition store_extends (d d' : gmap string Status.t) : Prop :=
  forall k st, d !! k = Some st ->
    exists st', d' !! k = Some st' /\ status_extends st st'.

(** No record lists a year twice. *)
Definition years_distinct (d : gmap string Status.t) : Prop :=
  forall k st, d !! k = Some st -> NoDup (Status.years_wished_cakeday st).

(** Every year recorded is a year after the creation year in which the
    account's anniversary date exists. *)
Definition years_are_anniversaries (d : gmap string Status.t) : Prop :=
  forall k st y, d !! k = Some st -> y ∈ Status.years_wished_cakeday st ->
    exists c c', utcfromtimestamp (Status.created_utc st) = Ok c
                 /\ year c <> y
                 /\ replace_year c y = Ok c'.

(** A computation that maintains a property of the store, whether it
    returns or raises. *)
Definition keeps {A} (I : gmap string Status.t -> Prop) (m : M A) : Prop :=
  forall w, I (db w) -> I (db (m w).2).

(** The turns the loop of [run] passes over: the [None] marker, a suspended
    author, a deleted author, a post whose creation date is not today's. *)
Definition turn_skipped (post : option Post) (tnow : datetime) : Prop :=
  match post with
  | None => True
  | Some p =>
      suspended (post_author p) = true
      \/ post_author p = None
      \/ forall time_posted,
           utcfromtimestamp (post_created_utc p) = Ok time_posted ->
           date time_posted <> date tnow
  end.

(** ** Sample data *)

Module Sample.
(** An environment for texts of ASCII characters: a sentiment analyser that
    finds every text positive, an [inflect] that raises on a negative
    number, a posting action that always succeeds, and room for 400 nested
    invocations. *)
Definition env : Environment :=
  {| str_lower := lower_ascii;
     polarity_scores := fun _ => mkPolarity 0%float 0.25%float 0.75%float 0.5%float;
     ordinal_negative := fun _ => Raise TypeError;
     post_reply := fun _ _ => Ok "/r/cakeday/comments/1";
     nesting_limit := 400 |}.

(** The same with the posting action down, and with room for one invocation
    only. *)
Definition env_down : Environment :=
  {| str_lower := lower_ascii;
     polarity_scores := polarity_scores env;
     ordinal_negative := ordinal_negative env;
     post_reply := fun _ _ => Raise (FeedError "503");
     nesting_limit := 400 |}.
Definition env_tight : Environment :=
  {| str_lower := lower_ascii;
     polarity_scores := polarity_scores env;
     ordinal_negative := ordinal_negative env;
     post_reply := post_reply env;
     nesting_limit := 1 |}.

(** alice: created 2015-03-14 10:00:00; bob: 2024-01-10 00:00:00;
    leapling: 2016-02-29 11:45:00. *)
Definition alice : Redditor.t := Redditor.mk "alice" 1426327200 None.
Definition bob : Redditor.t := Redditor.mk "bob" 1704844800 None.
Definition leapling : Redditor.t := Redditor.mk "leapling" 1456746300 None.
Definition cadabot : Redditor.t := Redditor.mk "CaDaBot" 1400000000 None.

(** 2024-03-14 09:00:00 and 2023-03-01 12:00:00. *)
Definition now : datetime := mkdatetime 2024 3 14 9 0 0.
Definition common_year : datetime := mkdatetime 2023 3 1 12 0 0.

Definition submission (author : Redditor.t) : Post :=
  Submission (Some author) 1710406000.
Definition wish : Post :=
  Comment (Some cadabot) 1710406100 "Happy 9^th cake day! 😄" (submission alice) [].
Definition thanks : Post :=
  Comment (Some alice) 1710406200 "Thank you so much" wish [].

Definition world (d : gmap string Status.t) : World := mkWorld d [] [].
Definition alice_unwished : gmap string Status.t :=
  {[ "alice" := Status.mk 1426327200 [] ]}.
Definition alice_wished : gmap string Status.t :=
  {[ "alice" := Status.mk 1426327200 [2024] ]}.
Definition leapling_stored : gmap string Status.t :=
  {[ "leapling" := Status.mk 1456746300 [2020] ]}.
(** alice filed with a creation time one second after the one Reddit
    reports for her. *)
Definition alice_misfiled : gmap string Status.t :=
  {[ "alice" := Status.mk 1426327201 [] ]}.

(** Records created on 2015-03-14, 2016-03-14 and 2017-03-20. *)
Definition three_records : gmap string Status.t :=
  <[ "a" := Status.mk 1426327200 [] ]>
    (<[ "b" := Status.mk 1457949600 [] ]>
       {[ "c" := Status.mk 1490004000 [] ]}).
End Sample.

(** * Properties *)

(** ** The calendar *)

Lemma _month_day_ok_all (n : Z) (leapyear : bool) :
  0 <= n < 365 -> _month_day_ok n leapyear = true.
Proof.
  intros Hn.
  assert (Hall : forallb (fun k => _month_day_ok (Z.of_nat k) true
                                   && _month_day_ok (Z.of_nat k) false)
                         (seq 0 365) = true) by (vm_compute; reflexivity).
  rewrite forallb_forall in Hall.
  specialize (Hall (Z.to_nat n)).
  rewrite Z2Nat.id in Hall by lia.
  assert (Hin : In (Z.to_nat n) (seq 0 365)) by (apply in_seq; lia).
  apply Hall in Hin. apply andb_prop in Hin as [H1 H2].
  destruct leapyear; assumption.
Qed.

Lemma _is_leap_decomposed (q a b c : Z) :
  0 <= a <= 3 -> 0 <= b <= 24 -> 0 <= c <= 3 ->
  _is_leap (q * 400 + 1 + a * 100 + b * 4 + c)
  = (c =? 3) && (negb (b =? 24) || (a =? 3)).
Proof.
  intros Ha Hb Hc. unfold _is_leap.
  repeat match goal with
  | |- context [?x =? ?y] => destruct (Z.eqb_spec x y)
  end; simpl; try reflexivity; exfalso; Z.to_euclidean_division_equations; lia.
Qed.

Lemma _ord2ymd_valid (n : Z) :
  let '(y, m, d) := _ord2ymd n in
  1 <= m <= 12 /\ 1 <= d <= _days_in_month y m.
Proof.
  unfold _ord2ymd, _DI400Y, _DI100Y, _DI4Y. cbv zeta.
  set (q := (n - 1) / 146097).
  set (r0 := (n - 1) mod 146097).
  set (a := r0 / 36524). set (r1 := r0 mod 36524).
  set (b := r1 / 1461). set (r2 := r1 mod 1461).
  set (c := r2 / 365). set (r3 := r2 mod 365).
  assert (H0 : 0 <= r0 < 146097) by (apply Z.mod_pos_bound; lia).
  assert (H1 : 0 <= r1 < 36524) by (apply Z.mod_pos_bound; lia).
  assert (H2 : 0 <= r2 < 1461) by (apply Z.mod_pos_bound; lia).
  assert (H3 : 0 <= r3 < 365) by (apply Z.mod_pos_bound; lia).
  assert (Ha : 0 <= a <= 4) by (unfold a; Z.to_euclidean_division_equations; lia).
  assert (Hb : 0 <= b <= 24) by (unfold b; Z.to_euclidean_division_equations; lia).
  assert (Hc : 0 <= c <= 4) by (unfold c; Z.to_euclidean_division_equations; lia).
  destruct ((c =? 4) || (a =? 4)) eqn:Hspecial.
  - unfold _days_in_month. simpl. lia.
  - apply orb_false_elim in Hspecial as [Hc4 Ha4].
    apply Z.eqb_neq in Hc4, Ha4.
    set (leapyear := (c =? 3) && (negb (b =? 24) || (a =? 3))).
    pose proof (_month_day_ok_all r3 leapyear H3) as Hok.
    unfold _month_day_ok, _month_day in Hok. cbv zeta in Hok.
    destruct (r3 <? _) eqn:Hlt; cbv beta iota; unfold _days_in_month;
      rewrite (_is_leap_decomposed q a b c) by lia; fold leapyear;
      repeat (apply andb_prop in Hok as [Hok ?]); lia.
Qed.

Lemma utcfromtimestamp_valid (t : Z) (c : datetime) :
  utcfromtimestamp t = Ok c -> valid_datetime c.
Proof.
  unfold utcfromtimestamp, valid_datetime, _check_date_fields.
  pose proof (_ord2ymd_valid (t / 86400 + _EPOCH_ORD)) as Hv.
  destruct (_ord2ymd _) as [[y m] d].
  destruct ((MINYEAR <=? y) && (y <=? MAXYEAR)) eqn:Hy; [|discriminate].
  intros [= <-]. simpl. rewrite Hy. simpl.
  repeat (apply andb_true_intro; split); apply Z.leb_le; lia.
Qed.

Lemma leap_day_in_leap_year (c : datetime) :
  valid_datetime c -> month c = 2 -> day c = 29 -> _is_leap (year c) = true.
Proof.
  unfold valid_datetime, _check_date_fields, _days_in_month.
  intros Hv Hm Hd. rewrite Hm, Hd in Hv. simpl in Hv.
  destruct (_is_leap (year c)); [reflexivity|].
  simpl in Hv. rewrite andb_false_r in Hv. discriminate.
Qed.

Lemma replace_year_leap_day (c : datetime) (y : Z) :
  month c = 2 -> day c = 29 -> _is_leap y = false ->
  replace_year c y = Raise ValueError.
Proof.
  intros Hm Hd Hl. unfold replace_year, _check_date_fields, _days_in_month.
  rewrite Hm, Hd, Hl. simpl. rewrite andb_false_r. reflexivity.
Qed.

Lemma replace_year_date (c c' : datetime) (y : Z) :
  replace_year c y = Ok c' -> date c' = (y, month c, day c).
Proof.
  unfold replace_year. destruct (_check_date_fields _ _ _); [|discriminate].
  intros [= <-]. reflexivity.
Qed.

Lemma date_eqb_eq (d1 d2 : Z * Z * Z) : date_eqb d1 d2 = true <-> d1 = d2.
Proof.
  destruct d1 as [[y1 m1] dd1], d2 as [[y2 m2] dd2]. unfold date_eqb.
  rewrite !andb_true_iff, !Z.eqb_eq. split.
  - intros [[-> ->] ->]. reflexivity.
  - intros [= -> -> ->]. auto.
Qed.

(** Replacing the year of a creation date gives today's date exactly when
    the day and the month are today's. *)
Lemma anniversary_is_day_and_month (c tnow : datetime) :
  valid_datetime tnow ->
  (exists c', replace_year c (year tnow) = Ok c' /\ date c' = date tnow)
  <-> (day c, month c) = (day tnow, month tnow).
Proof.
  intros Hv. split.
  - intros (c' & Hr & Hd). apply replace_year_date in Hr.
    rewrite Hr in Hd. unfold date in Hd. congruence.
  - intros [= Hday Hmonth]. unfold replace_year. rewrite Hday, Hmonth.
    unfold valid_datetime in Hv. rewrite Hv.
    eexists. split; [reflexivity|]. reflexivity.
Qed.

(** ** The record store *)

Ltac unfold_monad :=
  unfold mbind, M_bind, mret, M_ret, raise, lift, logger, sleep, emit,
    db_get, db_getitem, db_setitem, db_len, db_items in *.

(** A term that holds no [match]: the scrutinee to case on first. *)
Ltac is_plain t :=
  lazymatch t with
  | context [match _ with _ => _ end] => fail
  | _ => idtac
  end.

Lemma World_eta (w : World) : mkWorld (db w) (trace w) (entropy w) = w.
Proof. destruct w; reflexivity. Qed.

Lemma get_cakeday_status_found (w : World) (r : Redditor.t) (st : Status.t) :
  db w !! Redditor.name r = Some st ->
  get_cakeday_status (Some r) w
  = (if Redditor.created_utc r =? Status.created_utc st
     then Ok st else Raise AssertionError, w).
Proof.
  intros Hst. unfold get_cakeday_status. unfold_monad. rewrite Hst.
  destruct (_ =? _); reflexivity.
Qed.

Lemma get_cakeday_status_new (w : World) (r : Redditor.t) :
  db w !! Redditor.name r = None ->
  get_cakeday_status (Some r) w
  = (Ok (Status.mk (Redditor.created_utc r) []),
     mkWorld (<[Redditor.name r := Status.mk (Redditor.created_utc r) []]> (db w))
             (trace w) (entropy w)).
Proof.
  intros Hst. unfold get_cakeday_status. unfold_monad. rewrite Hst. simpl.
  rewrite lookup_insert_eq. reflexivity.
Qed.

(** Whatever the outcome, resolving a record touches neither the trace nor
    the draws, and on success the record returned is the one then stored,
    with the creation time observed. *)
Lemma get_cakeday_status_inv (w w' : World) (author : option Redditor.t) (res : result Status.t) :
  get_cakeday_status author w = (res, w') ->
  trace w' = trace w /\ entropy w' = entropy w
  /\ (forall u, years_wished (db w') u = years_wished (db w) u)
  /\ match res with
     | Ok st => exists a, author = Some a
                 /\ db w' !! Redditor.name a = Some st
                 /\ Status.created_utc st = Redditor.created_utc a
                 /\ (db w' = db w
                     \/ db w !! Redditor.name a = None
                        /\ Status.years_wished_cakeday st = []
                        /\ db w' = <[Redditor.name a := st]> (db w))
     | Raise e => w' = w /\ (e = AssertionError \/ e = AttributeError)
     end.
Proof.
  destruct author as [a|].
  - destruct (db w !! Redditor.name a) as [st|] eqn:Hst.
    + rewrite (get_cakeday_status_found _ _ _ Hst).
      destruct (Z.eqb_spec (Redditor.created_utc a) (Status.created_utc st));
        intros [= <- <-]; repeat split; eauto 10.
    + rewrite (get_cakeday_status_new _ _ Hst). intros [= <- <-]. simpl.
      repeat split.
      * intros u. unfold years_wished.
        destruct (decide (Redditor.name a = u)) as [<-|Hne].
        -- rewrite lookup_insert_eq, Hst. reflexivity.
        -- rewrite lookup_insert_ne by assumption. reflexivity.
      * exists a. rewrite lookup_insert_eq. eauto 10.
  - unfold get_cakeday_status, raise. intros [= <- <-]. eauto 10.
Qed.

(** C5. [get_cakeday_status] on a user name with no record stores and
    returns a record with the observed creation time and no year wished;
    from the resulting store, a call for the same name with the same
    creation time returns that record and changes nothing, and a call with
    another creation time raises [AssertionError] (the data-inconsistency
    failure), returns no record and leaves the stored one as it is. *)
Theorem C5_get_cakeday_status (w : World) (r : Redditor.t) :
  db w !! Redditor.name r = None ->
  let st := Status.mk (Redditor.created_utc r) [] in
  exists w1,
    get_cakeday_status (Some r) w = (Ok st, w1)
    /\ db w1 = <[Redditor.name r := st]> (db w)
    /\ trace w1 = trace w
    /\ (forall r', Redditor.name r' = Redditor.name r ->
          Redditor.created_utc r' = Redditor.created_utc r ->
          get_cakeday_status (Some r') w1 = (Ok st, w1))
    /\ (forall r', Redditor.name r' = Redditor.name r ->
          Redditor.created_utc r' <> Redditor.created_utc r ->
          get_cakeday_status (Some r') w1 = (Raise AssertionError, w1)
          /\ db w1 !! Redditor.name r = Some st).
Proof.
  intros Hnone st.
  eexists. split; [apply (get_cakeday_status_new _ _ Hnone)|].
  split; [reflexivity|]. split; [reflexivity|]. split.
  - intros r' Hname Hcreated.
    rewrite (get_cakeday_status_found _ r' st)
      by (simpl; rewrite Hname; apply lookup_insert_eq).
    simpl. rewrite Hcreated, Z.eqb_refl. reflexivity.
  - intros r' Hname Hcreated. split; [|apply lookup_insert_eq].
    rewrite (get_cakeday_status_found _ r' st)
      by (simpl; rewrite Hname; apply lookup_insert_eq).
    simpl. apply Z.eqb_neq in Hcreated. rewrite Hcreated. reflexivity.
Qed.

(** ** Traces *)

Lemma replies_of_app (t1 t2 : list Event) :
  replies_of (t1 ++ t2) = (replies_of t1 ++ replies_of t2)%list.
Proof.
  induction t1 as [|e t1 IH]; [reflexivity|].
  destruct e; simpl; rewrite IH; reflexivity.
Qed.

Lemma sleeps_of_app (t1 t2 : list Event) :
  sleeps_of (t1 ++ t2) = (sleeps_of t1 ++ sleeps_of t2)%list.
Proof.
  induction t1 as [|e t1 IH]; [reflexivity|].
  destruct e; simpl; rewrite IH; reflexivity.
Qed.

(** ** The [inflect] ordinal *)

Lemma nth_suffix_digit (n : Z) : 0 <= n < 10 -> is_Some (nth_suffix n).
Proof.
  intros Hn.
  assert (Hall : forallb (fun k => isSome (nth_suffix (Z.of_nat k))) (seq 0 10) = true)
    by reflexivity.
  rewrite forallb_forall in Hall.
  specialize (Hall (Z.to_nat n)). rewrite Z2Nat.id in Hall by lia.
  destruct (nth_suffix n) as [post|]; [by exists post|].
  discriminate Hall. apply in_seq. lia.
Qed.

Lemma nth_suffix_length (n : Z) (post : string) :
  nth_suffix n = Some post -> String.length post = 2%nat.
Proof.
  unfold nth_suffix. intros H.
  repeat match type of H with
  | match ?x with _ => _ end = _ => destruct x; try discriminate
  end; injection H as <-; reflexivity.
Qed.

Lemma ordinal_nonneg (negative : Z -> result string) (n : Z) :
  0 <= n ->
  exists post, ordinal negative n = Ok (str_of_int n +:+ post)
               /\ String.length post = 2%nat
               /\ (nth_suffix (n mod 100) = Some post
                   \/ nth_suffix (n mod 100) = None /\ nth_suffix (n mod 10) = Some post).
Proof.
  intros Hn. unfold ordinal.
  destruct (Z.leb_spec 0 n) as [_|]; [|lia].
  destruct (nth_suffix (n mod 100)) as [post|] eqn:H100.
  - exists post. eauto using nth_suffix_length.
  - destruct (nth_suffix_digit (n mod 10)) as [post H10].
    { apply Z.mod_pos_bound. lia. }
    rewrite H10. exists post. eauto 6 using nth_suffix_length.
Qed.

Lemma string_length_app (s p : string) :
  String.length (s +:+ p) = (String.length s + String.length p)%nat.
Proof. induction s as [|c s IH]; simpl; [reflexivity|]. rewrite IH. reflexivity. Qed.

Lemma substring_prefix (s p : string) :
  substring 0 (String.length s) (s +:+ p) = s.
Proof. induction s as [|c s IH]; simpl; [destruct p|rewrite IH]; reflexivity. Qed.

Lemma substring_whole (p : string) : substring 0 (String.length p) p = p.
Proof. induction p as [|c p IH]; simpl; [|rewrite IH]; reflexivity. Qed.

Lemma substring_suffix (s p : string) :
  substring (String.length s) (String.length p) (s +:+ p) = p.
Proof. induction s as [|c s IH]; simpl; [apply substring_whole|exact IH]. Qed.

(** Splitting an ordinal before its two-letter suffix. *)
Lemma slice_ordinal (digits post : string) :
  String.length post = 2%nat ->
  slice_to_minus2 (digits +:+ post) = digits
  /\ slice_from_minus2 (digits +:+ post) = post.
Proof.
  intros Hp. unfold slice_to_minus2, slice_from_minus2.
  rewrite string_length_app, Hp.
  replace (String.length digits + 2 - 2)%nat with (String.length digits) by lia.
  split; [apply substring_prefix|]. rewrite <- Hp. apply substring_suffix.
Qed.

(** ** The cake-day detector *)

Section Detectors.
Variable env : Environment.

Lemma choose_cakeday_wish_spec (age_str : string) (w : World) :
  exists emoji w',
    choose_cakeday_wish age_str w
    = (Ok ("Happy " +:+ age_str +:+ " cake day! " +:+ emoji), w')
    /\ emoji ∈ cakeday_emojis /\ db w' = db w /\ trace w' = trace w.
Proof.
  unfold choose_cakeday_wish, random_choice. unfold_monad.
  destruct (entropy w) as [|k rest].
  - do 2 eexists. split; [reflexivity|]. split; [|auto].
    apply list_elem_of_In, nth_In. simpl. lia.
  - do 2 eexists. split; [reflexivity|]. split; [|auto].
    apply list_elem_of_In, nth_In. apply Nat.mod_upper_bound. discriminate.
Qed.

(** With the year already wished, the call returns at once. *)
Lemma post_if_cakeday_already_wished (post : Post) (tnow : datetime) (w : World)
    (a : Redditor.t) (st : Status.t) :
  post_author post = Some a ->
  db w !! Redditor.name a = Some st ->
  year tnow ∈ Status.years_wished_cakeday st ->
  post_if_cakeday env post tnow w
  = (if Redditor.created_utc a =? Status.created_utc st
     then Ok tt else Raise AssertionError, w).
Proof.
  intros Ha Hst Hy. unfold post_if_cakeday.
  unfold mbind at 1, M_bind at 1.
  rewrite Ha, (get_cakeday_status_found _ _ _ Hst).
  destruct (_ =? _); [|reflexivity].
  rewrite bool_decide_eq_true_2 by assumption. reflexivity.
Qed.

Lemma post_if_cakeday_inv (post : Post) (tnow : datetime) (w w' : World)
    (res : result unit) :
  post_if_cakeday env post tnow w = (res, w') ->
  match get_cakeday_status (post_author post) w with
  | (Raise e, w0) => res = Raise e /\ w' = w0
  | (Ok st, w0) => cakeday_outcome env post tnow w0 st res w'
  end.
Proof.
  unfold post_if_cakeday. unfold mbind at 1, M_bind at 1.
  destruct (get_cakeday_status _ w) as [[st|e] w0] eqn:Hg;
    [|intros [= <- <-]; auto].
  destruct (bool_decide _) eqn:Hy.
  { apply bool_decide_eq_true_1 in Hy. intros [= <- <-]. by constructor. }
  apply bool_decide_eq_false_1 in Hy.
  unfold mbind at 1, M_bind at 1, lift at 1.
  destruct (utcfromtimestamp _) as [c|e] eqn:Hc;
    [|intros [= <- <-]; by eapply outcome_unrepresentable].
  destruct (Z.eqb_spec (year c) (year tnow)) as [Heq|Hne].
  { intros [= <- <-]. by eapply outcome_first_year. }
  unfold mbind at 1, M_bind at 1, lift at 1.
  destruct (replace_year _ _) as [c'|e] eqn:Hr;
    [|intros [= <- <-]; by eapply outcome_no_such_day].
  destruct (date_eqb _ _) eqn:Hd.
  2:{ intros [= <- <-]. eapply outcome_other_day; eauto.
      intros Heq. apply date_eqb_eq in Heq. congruence. }
  apply date_eqb_eq in Hd.
  destruct (post_author post) as [a|] eqn:Ha; [|discriminate].
  unfold mbind at 1, M_bind at 1, logger at 1, emit at 1.
  unfold mbind at 1, M_bind at 1, lift at 1.
  destruct (ordinal _ _) as [age_ordinal|e] eqn:Ho;
    [|intros [= <- <-]; by eapply outcome_no_ordinal].
  unfold mbind at 1, M_bind at 1.
  match goal with
  | |- context [choose_cakeday_wish ?s ?w1] =>
      destruct (choose_cakeday_wish_spec s w1) as (emoji & w2 & -> & Hin & Hdb & Htr)
  end.
  unfold reply. unfold_monad. simpl in Hdb, Htr. simpl.
  intros Hres. eapply outcome_wish; eauto.
  destruct (post_reply env _ _) as [permalink|e]; injection Hres as <- <-; simpl;
    rewrite ?Hdb, ?Htr, <- ?app_assoc; auto.
Qed.

(** A wish that is posted and acknowledged is recorded under the author's
    name, with the creation time observed. *)
Lemma post_if_cakeday_records_wish (post : Post) (tnow : datetime) (w w' : World) :
  post_if_cakeday env post tnow w = (Ok tt, w') ->
  replies_of (trace w') <> replies_of (trace w) ->
  exists a st, post_author post = Some a
    /\ db w' !! Redditor.name a = Some st
    /\ Status.created_utc st = Redditor.created_utc a
    /\ year tnow ∈ Status.years_wished_cakeday st.
Proof.
  intros Hrun Hsent. apply post_if_cakeday_inv in Hrun.
  destruct (get_cakeday_status _ w) as [[st|e] w0] eqn:Hg; [|by destruct Hrun].
  apply get_cakeday_status_inv in Hg as (Htr & _ & _ & a & Ha & _ & Hcr & _).
  inversion Hrun; subst; try (rewrite Htr in Hsent; contradiction).
  match goal with H : match post_reply env ?p ?t with _ => _ end |- _ =>
    destruct (post_reply env p t); destruct H as (Hres & Hdb & _); [|discriminate]
  end.
  assert (a0 = a) as -> by congruence.
  exists a. eexists. split; [assumption|]. rewrite Hdb, lookup_insert_eq.
  split; [reflexivity|]. simpl. split; [assumption|].
  apply elem_of_app. right. by apply list_elem_of_singleton.
Qed.

(** C1. Once the year of [tnow] is among the years wished of the author's
    record, [post_if_cakeday] on any post of that author leaves the whole
    world as it is: no call of [post.reply], no change to the store; it
    returns normally when the stored creation time is the observed one.
    In particular, after a call that posted a wish and returned, a further
    call for a post of the same author in the same year is a no-op. *)
Theorem C1_no_second_wish :
  (forall post tnow w a st,
      post_author post = Some a ->
      db w !! Redditor.name a = Some st ->
      year tnow ∈ Status.years_wished_cakeday st ->
      exists res, post_if_cakeday env post tnow w = (res, w)
                  /\ (Status.created_utc st = Redditor.created_utc a -> res = Ok tt))
  /\ (forall post0 tnow0 w0 w,
        post_if_cakeday env post0 tnow0 w0 = (Ok tt, w) ->
        replies_of (trace w) <> replies_of (trace w0) ->
        forall post tnow,
          post_author post = post_author post0 ->
          year tnow = year tnow0 ->
          post_if_cakeday env post tnow w = (Ok tt, w)).
Proof.
  split.
  - intros post tnow w a st Ha Hst Hy.
    rewrite (post_if_cakeday_already_wished _ _ _ _ _ Ha Hst Hy).
    eexists. split; [reflexivity|]. intros ->. by rewrite Z.eqb_refl.
  - intros post0 tnow0 w0 w Hrun Hsent post tnow Hauthor Hyear.
    destruct (post_if_cakeday_records_wish _ _ _ _ Hrun Hsent)
      as (a & st & Ha & Hst & Hcr & Hy).
    rewrite <- Hauthor in Ha. rewrite <- Hyear in Hy.
    rewrite (post_if_cakeday_already_wished _ _ _ _ _ Ha Hst Hy).
    by rewrite Hcr, Z.eqb_refl.
Qed.

(** C6. For an author whose account was created in the year of [tnow],
    [post_if_cakeday] never calls [post.reply] (it adds nothing to the
    trace at all) and leaves the years wished of every user as they were. *)
Theorem C6_first_year_exclusion (post : Post) (tnow : datetime) (w : World)
    (a : Redditor.t) (c : datetime) :
  post_author post = Some a ->
  utcfromtimestamp (Redditor.created_utc a) = Ok c ->
  year c = year tnow ->
  let w' := (post_if_cakeday env post tnow w).2 in
  trace w' = trace w
  /\ replies_of (trace w') = replies_of (trace w)
  /\ forall u, years_wished (db w') u = years_wished (db w) u.
Proof.
  intros Ha Hc Hy w'.
  assert (Hgoal : trace w' = trace w
                  /\ forall u, years_wished (db w') u = years_wished (db w) u).
  { subst w'. destruct (post_if_cakeday _ _ _ _) as [res w'] eqn:Hrun. simpl.
    apply post_if_cakeday_inv in Hrun.
    destruct (get_cakeday_status _ w) as [[st|e] w0] eqn:Hg.
    - apply get_cakeday_status_inv in Hg as (Htr & _ & Hyw & a' & Ha' & _ & Hcr & _).
      assert (a' = a) as -> by congruence. rewrite <- Hcr in Hc.
      inversion Hrun; subst; auto; congruence.
    - apply get_cakeday_status_inv in Hg as (Htr & _ & Hyw & _).
      destruct Hrun as [_ ->]. auto. }
  destruct Hgoal as [Htr Hyw]. rewrite Htr. auto.
Qed.

(** C3. For a post whose author has a stored record with the creation
    time observed, created in an earlier year than [tnow]'s and not yet
    wished in that year: [post_if_cakeday] calls [post.reply] exactly
    when the creation date with its year replaced by [tnow]'s is [tnow]'s
    date, which is exactly when day and month of creation are those of
    [tnow]; the age of the wish is the difference of the years, written
    as its decimal numeral, a caret, and the two-letter ordinal suffix. *)
Theorem C3_cakeday_match (post : Post) (tnow : datetime) (w : World)
    (a : Redditor.t) (st : Status.t) (c : datetime) :
  valid_datetime tnow ->
  post_author post = Some a ->
  db w !! Redditor.name a = Some st ->
  Status.created_utc st = Redditor.created_utc a ->
  utcfromtimestamp (Status.created_utc st) = Ok c ->
  year c <> year tnow ->
  year c <= year tnow ->
  year tnow ∉ Status.years_wished_cakeday st ->
  let w' := (post_if_cakeday env post tnow w).2 in
  let age := year tnow - year c in
  let fires := exists text,
    replies_of (trace w') = (replies_of (trace w) ++ [(post, text)])%list in
  (fires <-> anniversary_date (Some a) tnow = Some (date tnow))
  /\ (fires <-> (day c, month c) = (day tnow, month tnow))
  /\ (~ fires -> replies_of (trace w') = replies_of (trace w))
  /\ (fires ->
       exists suffix emoji,
         ordinal (ordinal_negative env) age = Ok (str_of_int age +:+ suffix)
         /\ String.length suffix = 2%nat
         /\ emoji ∈ cakeday_emojis
         /\ replies_of (trace w')
            = (replies_of (trace w)
               ++ [(post, "Happy " +:+ (str_of_int age +:+ "^" +:+ suffix)
                          +:+ " cake day! " +:+ emoji)])%list).
Proof.
  intros Hv Ha Hst Hcr Hc Hne Hle Hy w' age fires.
  subst age. set (age := year tnow - year c) in *.
  assert (Hann : anniversary_date (Some a) tnow = Some (date tnow)
                 <-> (day c, month c) = (day tnow, month tnow)).
  { rewrite <- (anniversary_is_day_and_month c tnow Hv).
    unfold anniversary_date. rewrite <- Hcr, Hc.
    destruct (replace_year c (year tnow)) as [c'|e].
    - split; [intros Hd; exists c'; split; [reflexivity|congruence]
             |intros (c'' & [= <-] & ->); reflexivity].
    - split; [discriminate|intros (c'' & [=] & _)]. }
  destruct (ordinal_nonneg (ordinal_negative env) age) as (suffix & Ho & Hlen & _);
    [unfold age; lia|].
  destruct (slice_ordinal (str_of_int age) suffix Hlen) as [Hs1 Hs2].
  assert (Hcases :
    (day c, month c) <> (day tnow, month tnow)
    /\ replies_of (trace w') = replies_of (trace w)
    \/ (day c, month c) = (day tnow, month tnow)
       /\ exists emoji, emoji ∈ cakeday_emojis
          /\ replies_of (trace w')
             = (replies_of (trace w)
                ++ [(post, "Happy " +:+ (str_of_int age +:+ "^" +:+ suffix)
                           +:+ " cake day! " +:+ emoji)])%list).
  { subst w'. destruct (post_if_cakeday _ _ _ _) as [res w'] eqn:Hrun. simpl.
    apply post_if_cakeday_inv in Hrun.
    rewrite Ha, (get_cakeday_status_found _ _ _ Hst), <- Hcr, Z.eqb_refl in Hrun.
    subst age.
    inversion Hrun; subst; try congruence;
      (assert (c0 = c) as -> by congruence); try congruence.
    - left. split; [|reflexivity].
      rewrite <- (anniversary_is_day_and_month c tnow Hv).
      intros (c'' & Hr & _). congruence.
    - left. split; [|reflexivity].
      rewrite <- (anniversary_is_day_and_month c tnow Hv).
      intros (c'' & Hr & Hd). congruence.
    - right.
      split; [apply (anniversary_is_day_and_month c tnow Hv); eauto|].
      assert (age_ordinal = str_of_int (year tnow - year c) +:+ suffix) as ->
        by congruence.
      exists emoji. split; [assumption|]. subst text called.
      match goal with H : match post_reply env ?p ?t with _ => _ end |- _ =>
        destruct (post_reply env p t); destruct H as (_ & _ & ->)
      end; rewrite !replies_of_app, Hs1, Hs2; simpl;
        rewrite ?app_nil_r; reflexivity. }
  assert (Hnot : forall text,
    replies_of (trace w) <> (replies_of (trace w) ++ [(post, text)])%list).
  { intros text Heq. apply (f_equal length) in Heq.
    rewrite length_app in Heq. simpl in Heq. lia. }
  assert (Hfires : fires <-> (day c, month c) = (day tnow, month tnow)).
  { unfold fires. destruct Hcases as [[Hno ->]|[Hyes (emoji & _ & ->)]].
    - split; [intros [text Ht]; by apply Hnot in Ht|contradiction].
    - split; [auto|eauto]. }
  split; [by rewrite Hann|]. split; [assumption|]. split.
  - intros Hnf. destruct Hcases as [[_ ?]|[Hyes _]]; [assumption|].
    apply Hfires in Hyes. contradiction.
  - intros Hf. apply Hfires in Hf.
    destruct Hcases as [[? _]|[_ (emoji & ? & ?)]]; [contradiction|eauto 10].
Qed.

(** ** The thank-you detector *)

Lemma random_choice_spec {A} (options : list A) (default : A) (w : World) :
  options <> [] ->
  exists x w', random_choice options default w = (Ok x, w')
    /\ x ∈ options /\ db w' = db w /\ trace w' = trace w.
Proof.
  intros Hne. unfold random_choice.
  assert (Hlen : (0 < length options)%nat) by (destruct options; simpl; [done|lia]).
  destruct (entropy w) as [|k rest].
  - do 2 eexists. split; [reflexivity|]. split; [|auto].
    by apply list_elem_of_In, nth_In.
  - do 2 eexists. split; [reflexivity|]. split; [|auto].
    apply list_elem_of_In, nth_In, Nat.mod_upper_bound. lia.
Qed.

Lemma get_cakeday_status_consistent (w : World) (a : Redditor.t) :
  record_consistent (db w) (Some a) ->
  exists st w0, get_cakeday_status (Some a) w = (Ok st, w0)
    /\ Status.created_utc st = Redditor.created_utc a
    /\ trace w0 = trace w.
Proof.
  intros Hcons. destruct (db w !! Redditor.name a) as [st|] eqn:Hst.
  - pose proof (Hcons a st eq_refl Hst) as Hcr.
    rewrite (get_cakeday_status_found _ _ _ Hst), <- Hcr, Z.eqb_refl.
    exists st, w. auto.
  - rewrite (get_cakeday_status_new _ _ Hst).
    do 2 eexists. split; [reflexivity|]. auto.
Qed.

Lemma no_new_reply (t : list (Post * string)) (x : Post * string) :
  t <> (t ++ [x])%list.
Proof.
  intros Heq. apply (f_equal length) in Heq.
  rewrite length_app in Heq. simpl in Heq. lia.
Qed.

Lemma existsb_false_Forall {A} (f : A -> bool) (l : list A) :
  existsb f l = false <-> Forall (fun x => f x = false) l.
Proof.
  induction l as [|x l IH]; simpl.
  - split; [constructor|reflexivity].
  - rewrite orb_false_iff, IH. split.
    + intros [? ?]. by constructor.
    + intros Hall. inversion Hall; subst. auto.
Qed.

(** A record that disagrees with the author stops record resolution. *)
Lemma record_consistent_cases (w : World) (a : Redditor.t) :
  record_consistent (db w) (Some a)
  \/ (~ record_consistent (db w) (Some a)
      /\ get_cakeday_status (Some a) w = (Raise AssertionError, w)).
Proof.
  destruct (db w !! Redditor.name a) as [st|] eqn:Hst.
  - destruct (Z.eqb_spec (Redditor.created_utc a) (Status.created_utc st)) as [Heq|Hne].
    + left. intros a' st' [= <-] Hst'. congruence.
    + right. split.
      * intros Hcons. apply Hne. symmetry. by apply (Hcons a st).
      * rewrite (get_cakeday_status_found _ _ _ Hst).
        apply Z.eqb_neq in Hne. by rewrite Hne.
  - left. intros a' st' [= <-] Hst'. congruence.
Qed.

(** C2. [post_if_response_to_cakeday_wish] calls [post.reply] with one of
    the acknowledgment texts if and only if the record stored under the
    author's name, if any, has the creation time observed for the author,
    and all seven conditions hold: the author's anniversary date in the
    year of [tnow] is today, the post is a comment, its lower-cased body
    contains "thank", its positive score exceeds 0.4 and its negative
    score equals 0, its parent is by CaDaBot, the parent of its parent is
    by the author of the post, and none of its replies is by CaDaBot.
    When the record disagrees or any condition fails there is no call;
    there is never more than one. *)
Theorem C2_thank_you_acknowledgment (post : Post) (tnow : datetime) (w : World) :
  let w' := (post_if_response_to_cakeday_wish env post tnow w).2 in
  let acknowledged := exists text,
    text ∈ thank_you_options
    /\ replies_of (trace w') = (replies_of (trace w) ++ [(post, text)])%list in
  (acknowledged <->
     record_consistent (db w) (post_author post)
     /\ anniversary_is_today post tnow
     /\ is_reply post
     /\ says_thank env post
     /\ sentiment_positive env post
     /\ parent_by_bot env post
     /\ grandparent_by_author env post
     /\ no_reply_by_bot env post)
  /\ (~ acknowledged -> replies_of (trace w') = replies_of (trace w)).
Proof.
  intros w' acknowledged.
  set (conditions := record_consistent (db w) (post_author post)
    /\ anniversary_is_today post tnow /\ is_reply post
    /\ says_thank env post /\ sentiment_positive env post
    /\ parent_by_bot env post /\ grandparent_by_author env post
    /\ no_reply_by_bot env post).
  assert (Hcases :
    replies_of (trace w') = replies_of (trace w) /\ ~ conditions
    \/ acknowledged /\ conditions).
  { subst w' acknowledged conditions.
    destruct (post_if_response_to_cakeday_wish _ _ _ _) as [res w'] eqn:Hrun.
    cbn [snd].
    unfold anniversary_is_today, is_reply, says_thank, sentiment_positive,
      parent_by_bot, grandparent_by_author, no_reply_by_bot, anniversary_date.
    unfold post_if_response_to_cakeday_wish in Hrun.
    unfold mbind at 1, M_bind at 1 in Hrun.
    destruct (post_author post) as [a|] eqn:Ha.
    2:{ injection Hrun as <- <-. left. split; [reflexivity|].
        intros (_ & ? & _). discriminate. }
    destruct (record_consistent_cases w a) as [Hcons|[Hdiffers Hfails]].
    2:{ rewrite Hfails in Hrun. injection Hrun as <- <-. left.
        split; [reflexivity|]. intros (? & _). contradiction. }
    destruct (get_cakeday_status_consistent w a Hcons) as (st & w0 & Hg & Hcr & Htr).
    rewrite Hg, Hcr in Hrun.
    unfold mbind at 1, M_bind at 1, lift at 1 in Hrun.
    destruct (utcfromtimestamp _) as [c|e].
    2:{ injection Hrun as <- <-. left. split; [by rewrite Htr|].
        intros (_ & ? & _). discriminate. }
    unfold mbind at 1, M_bind at 1, lift at 1 in Hrun.
    destruct (replace_year _ _) as [c'|e].
    2:{ injection Hrun as <- <-. left. split; [by rewrite Htr|].
        intros (_ & ? & _). discriminate. }
    destruct (date_eqb (date c') (date tnow)) eqn:Hd;
      cbn [negb] in Hrun.
    2:{ injection Hrun as <- <-. left. split; [by rewrite Htr|].
        intros (_ & Hdate & _).
        assert (Heq : date c' = date tnow) by congruence.
        apply date_eqb_eq in Heq. congruence. }
    apply date_eqb_eq in Hd.
    destruct post as [author ts|author ts body parent replies];
      cbn [post_author is_comment post_body post_parent post_replies] in *.
    { injection Hrun as <- <-. left. split; [by rewrite Htr|].
      intros (_ & _ & ? & _). discriminate. }
    subst author.
    destruct (contains "thank" (str_lower env body)) eqn:Hthank;
      cbn [negb] in Hrun.
    2:{ injection Hrun as <- <-. left. split; [by rewrite Htr|].
        intros (_ & _ & _ & (b & [= <-] & ?) & _). congruence. }
    destruct (PrimFloat.ltb _ _ && PrimFloat.eqb _ _) eqn:Hpol;
      cbn [negb] in Hrun.
    2:{ injection Hrun as <- <-. left. split; [by rewrite Htr|].
        intros (_ & _ & _ & _ & (b & [= <-] & Hp & Hn) & _).
        rewrite Hp, Hn in Hpol. discriminate. }
    apply andb_prop in Hpol as [Hp Hn].
    destruct (redditor_eq_str (str_lower env) (post_author parent) "CaDaBot") eqn:Hbot;
      cbn [negb] in Hrun.
    2:{ injection Hrun as <- <-. left. split; [by rewrite Htr|].
        intros (_ & _ & _ & _ & _ & (p & [= <-] & ?) & _). congruence. }
    destruct parent as [pauthor pts|pauthor pts pbody grandparent preplies];
      cbn [post_author is_comment post_body post_parent post_replies] in *.
    { injection Hrun as <- <-. left. split; [by rewrite Htr|].
      intros (_ & _ & _ & _ & _ & _ & (p & g & [= <-] & ? & _) & _). discriminate. }
    destruct (redditor_eq (str_lower env) (post_author grandparent) (Some a)) eqn:Hgp;
      cbn [negb] in Hrun.
    2:{ injection Hrun as <- <-. left. split; [by rewrite Htr|].
        intros (_ & _ & _ & _ & _ & _ & (p & g & [= <-] & [= <-] & ?) & _).
        congruence. }
    destruct (existsb _ replies) eqn:Hrep; cbn [negb] in Hrun.
    { injection Hrun as <- <-. left. split; [by rewrite Htr|].
      intros (_ & _ & _ & _ & _ & _ & _ & Hall).
      apply existsb_false_Forall in Hall. congruence. }
    apply existsb_false_Forall in Hrep.
    right. split.
    - unfold mbind at 1, M_bind at 1, logger at 1, emit at 1 in Hrun.
      unfold mbind at 1, M_bind at 1 in Hrun.
      match type of Hrun with context [random_choice ?o ?d ?w1] =>
        destruct (random_choice_spec o d w1) as (text & w2 & Hch & Hin & _ & Htr2);
          [discriminate|]
      end.
      rewrite Hch in Hrun.
      exists text. split; [assumption|].
      unfold reply in Hrun. unfold_monad. simpl in Htr2, Hrun.
      destruct (post_reply env _ text); injection Hrun as <- <-; simpl;
        rewrite Htr2, Htr, !replies_of_app;
        simpl; rewrite ?app_nil_r; reflexivity.
    - split; [assumption|]. split; [congruence|]. split; [reflexivity|].
      split; [by exists body|]. split; [by exists body|].
      split; [by eexists|]. split; [by do 2 eexists|assumption]. }
  split.
  - destruct Hcases as [[Heq Hno]|[Hack Hyes]]; [|tauto].
    split; [|contradiction].
    intros (text & _ & Ht). rewrite Heq in Ht. by apply no_new_reply in Ht.
  - intros Hnack. destruct Hcases as [[Heq _]|[Hack _]]; [assumption|contradiction].
Qed.

(** ** Years wished stay sound *)

Lemma wished_years_sound_empty : wished_years_sound ∅.
Proof. intros k st y Hk. by rewrite lookup_empty in Hk. Qed.

Lemma wished_years_sound_insert (d : gmap string Status.t) (k : string)
    (st : Status.t) :
  wished_years_sound d ->
  (forall y, y ∈ Status.years_wished_cakeday st ->
     exists c c', utcfromtimestamp (Status.created_utc st) = Ok c
                  /\ replace_year c y = Ok c') ->
  wished_years_sound (<[k := st]> d).
Proof.
  intros Hd Hst k' st' y Hk' Hy.
  destruct (decide (k = k')) as [<-|Hne].
  - rewrite lookup_insert_eq in Hk'. injection Hk' as <-. auto.
  - rewrite lookup_insert_ne in Hk' by assumption. eauto.
Qed.

Lemma get_cakeday_status_sound (author : option Redditor.t) (w : World) :
  wished_years_sound (db w) ->
  wished_years_sound (db (get_cakeday_status author w).2).
Proof.
  intros Hw. destruct (get_cakeday_status author w) as [res w'] eqn:Hg.
  apply get_cakeday_status_inv in Hg as (_ & _ & _ & Hres).
  destruct res as [st|e]; simpl.
  - destruct Hres as (a & _ & _ & _ & [->|(_ & Hy & ->)]); [assumption|].
    apply wished_years_sound_insert; [assumption|].
    intros y. rewrite Hy. intros Hin. by apply elem_of_nil in Hin.
  - by destruct Hres as [-> _].
Qed.

Lemma post_if_cakeday_sound (post : Post) (tnow : datetime) (w : World) :
  wished_years_sound (db w) ->
  wished_years_sound (db (post_if_cakeday env post tnow w).2).
Proof.
  intros Hw. destruct (post_if_cakeday _ _ _ _) as [res w'] eqn:Hrun. simpl.
  apply post_if_cakeday_inv in Hrun.
  pose proof (get_cakeday_status_sound (post_author post) w Hw) as Hw0.
  destruct (get_cakeday_status _ w) as [[st|e] w0] eqn:Hg; simpl in Hw0;
    [|by destruct Hrun as [_ ->]].
  apply get_cakeday_status_inv in Hg as (_ & _ & _ & a & Ha & Hst & _).
  inversion Hrun; subst; try assumption.
  subst text called.
  match goal with H : match post_reply env ?p ?t with _ => _ end |- _ =>
    destruct (post_reply env p t); destruct H as (_ & -> & _); [|assumption]
  end.
  apply wished_years_sound_insert; [assumption|]. simpl.
  intros y [Hy|Hy%list_elem_of_singleton]%elem_of_app.
  - assert (a0 = a) as -> by congruence. eauto.
  - subst y. eauto.
Qed.

(** C10. For a stored record of the author whose creation date is
    February 29, in a store whose wished years are sound, and a current
    year that is not a leap year: [post_if_cakeday] and
    [post_if_response_to_cakeday_wish] both raise [ValueError] out of the
    year replacement; neither returns, the world is left as it was. *)
Theorem C10_leap_day_raises (post : Post) (tnow : datetime) (w : World)
    (a : Redditor.t) (st : Status.t) (c : datetime) :
  wished_years_sound (db w) ->
  post_author post = Some a ->
  db w !! Redditor.name a = Some st ->
  Status.created_utc st = Redditor.created_utc a ->
  utcfromtimestamp (Status.created_utc st) = Ok c ->
  month c = 2 -> day c = 29 ->
  _is_leap (year tnow) = false ->
  replace_year c (year tnow) = Raise ValueError
  /\ post_if_cakeday env post tnow w = (Raise ValueError, w)
  /\ post_if_response_to_cakeday_wish env post tnow w
     = (Raise ValueError, w).
Proof.
  intros Hsound Ha Hst Hcr Hc Hm Hd Hleap.
  pose proof (replace_year_leap_day c (year tnow) Hm Hd Hleap) as Hr.
  split; [assumption|]. split.
  - unfold post_if_cakeday. unfold mbind at 1, M_bind at 1.
    rewrite Ha, (get_cakeday_status_found _ _ _ Hst), <- Hcr, Z.eqb_refl.
    rewrite bool_decide_eq_false_2.
    2:{ intros Hy. destruct (Hsound _ _ _ Hst Hy) as (c0 & c' & Hc0 & Hr0).
        congruence. }
    unfold mbind at 1, M_bind at 1, lift at 1. rewrite Hc.
    assert (Hyear : year c <> year tnow).
    { intros Heq.
      pose proof (leap_day_in_leap_year c (utcfromtimestamp_valid _ _ Hc) Hm Hd).
      congruence. }
    apply Z.eqb_neq in Hyear. rewrite Hyear.
    unfold mbind at 1, M_bind at 1, lift at 1. rewrite Hr. reflexivity.
  - unfold post_if_response_to_cakeday_wish. unfold mbind at 1, M_bind at 1.
    rewrite Ha, (get_cakeday_status_found _ _ _ Hst), <- Hcr, Z.eqb_refl.
    unfold mbind at 1, M_bind at 1, lift at 1. rewrite Hc.
    unfold mbind at 1, M_bind at 1, lift at 1. rewrite Hr. reflexivity.
Qed.
End Detectors.

(** ** The purge *)

Lemma scan_old_cakedays_spec (today_dm : Z * Z) (items : list (string * Status.t))
    (to_remove : list string) (w : World) :
  Forall (fun kv => is_Some (created_dm kv.2)) items ->
  exists ks,
    scan_old_cakedays today_dm items to_remove w = (Ok (to_remove ++ ks)%list, w)
    /\ (forall k, k ∈ ks <->
          exists st, (k, st) ∈ items /\ created_dm st <> Some today_dm)
    /\ (NoDup items.*1 -> NoDup ks).
Proof.
  intros Hall. revert to_remove.
  induction Hall as [|[k st] items Hst Hall IH]; intros to_remove.
  - exists []. simpl. rewrite app_nil_r. split; [reflexivity|]. split.
    + intros k. split; [intros Hk; by apply elem_of_nil in Hk|].
      intros (st & Hin & _). by apply elem_of_nil in Hin.
    + intros _. constructor.
  - simpl in Hst. destruct Hst as [dm Hdm].
    unfold created_dm in Hdm.
    destruct (utcfromtimestamp (Status.created_utc st)) as [t_created|e] eqn:Ht;
      [|discriminate].
    injection Hdm as <-.
    cbn [scan_old_cakedays]. unfold mbind at 1, M_bind at 1, lift at 1.
    rewrite Ht.
    assert (Hdm : created_dm st = Some (day t_created, month t_created))
      by (unfold created_dm; by rewrite Ht).
    destruct (decide ((day t_created, month t_created) ≠ today_dm)) as [Hold|Hsame].
    + destruct (IH (to_remove ++ [k])%list) as (ks & -> & Hks & Hnd).
      exists (k :: ks). rewrite <- app_assoc. split; [reflexivity|]. split.
      * intros k'. rewrite elem_of_cons, Hks. split.
        -- intros [->|(st' & Hin & Hne)].
           ++ exists st. split; [apply list_elem_of_here|congruence].
           ++ exists st'. split; [by apply list_elem_of_further|assumption].
        -- intros (st' & [[= -> ->]|Hin]%elem_of_cons & Hne); [by left|].
           right. eauto.
      * rewrite fmap_cons, NoDup_cons. intros [Hk Hnd']. apply NoDup_cons.
        split; [|auto]. intros (st' & Hin & _)%Hks. apply Hk.
        apply list_elem_of_fmap. by exists (k, st').
    + apply dec_stable in Hsame.
      destruct (IH to_remove) as (ks & -> & Hks & Hnd).
      exists ks. split; [reflexivity|]. split.
      * intros k'. rewrite Hks. split.
        -- intros (st' & Hin & Hne). exists st'.
           split; [by apply list_elem_of_further|assumption].
        -- intros (st' & [[= -> ->]|Hin]%elem_of_cons & Hne); [congruence|eauto].
      * rewrite fmap_cons, NoDup_cons. intros [_ Hnd']. auto.
Qed.

Lemma for_each_delitem (ks : list string) (w : World) :
  NoDup ks ->
  (forall k, k ∈ ks -> is_Some (db w !! k)) ->
  exists w', for_each ks db_delitem w = (Ok tt, w')
    /\ trace w' = trace w /\ entropy w' = entropy w
    /\ forall k, db w' !! k = if decide (k ∈ ks) then None else db w !! k.
Proof.
  revert w. induction ks as [|k ks IH]; intros w Hnd Hin.
  - exists w. split; [reflexivity|]. split; [reflexivity|]. split; [reflexivity|].
    intros k. rewrite decide_False; [reflexivity|]. apply not_elem_of_nil.
  - apply NoDup_cons in Hnd as [Hk Hnd].
    cbn [for_each]. unfold mbind at 1, M_bind at 1, db_delitem at 1.
    destruct (Hin k) as [st Hst]; [apply list_elem_of_here|]. rewrite Hst.
    destruct (IH (mkWorld (delete k (db w)) (trace w) (entropy w)) Hnd)
      as (w' & -> & Htr & Hen & Hdb).
    { intros k' Hk'. simpl. rewrite lookup_delete_ne by congruence.
      apply Hin. by apply list_elem_of_further. }
    exists w'. split; [reflexivity|]. repeat split; [assumption..|].
    intros k'. rewrite Hdb. simpl.
    destruct (decide (k' ∈ ks)) as [Hk'|Hk'].
    + rewrite decide_True by (by apply list_elem_of_further). reflexivity.
    + destruct (decide (k' = k)) as [->|Hne].
      * rewrite decide_True by apply list_elem_of_here. apply lookup_delete_eq.
      * rewrite decide_False by (rewrite elem_of_cons; tauto).
        by apply lookup_delete_ne.
Qed.

(** C4. With every stored creation time representable,
    [remove_old_cakedays] returns, and afterwards the store holds exactly
    the records of the store before whose creation (day, month) is that of
    [tnow]: those are left as they were, every other record is deleted.
    The entry counts before and after are logged. *)
Theorem C4_purge (tnow : datetime) (w : World) :
  timestamps_representable (db w) ->
  exists w',
    remove_old_cakedays tnow w = (Ok tt, w')
    /\ (forall k st, db w' !! k = Some st <->
          db w !! k = Some st /\ created_dm st = Some (day tnow, month tnow))
    /\ (forall k st, db w !! k = Some st ->
          created_dm st <> Some (day tnow, month tnow) -> db w' !! k = None)
    /\ trace w'
       = (trace w ++ [Log INFO ClearingOldEntries;
                      Log INFO (CurrentlyEntries (size (db w)));
                      Log INFO (EntriesRemaining (size (db w')))])%list.
Proof.
  intros Hrep. unfold remove_old_cakedays.
  unfold mbind at 1, M_bind at 1, logger at 1, emit at 1.
  unfold mbind at 1, M_bind at 1, db_len at 1.
  unfold mbind at 1, M_bind at 1, logger at 1, emit at 1.
  unfold mbind at 1, M_bind at 1, db_items at 1.
  cbn [db trace entropy].
  set (today_dm := (day tnow, month tnow)).
  set (w1 := mkWorld (db w) _ (entropy w)).
  destruct (scan_old_cakedays_spec today_dm (map_to_list (db w)) [] w1)
    as (ks & Hscan & Hks & Hnd).
  { apply Forall_forall. intros [k st] Hin%elem_of_map_to_list. eapply Hrep, Hin. }
  unfold mbind at 1, M_bind at 1. rewrite Hscan. cbn [app].
  assert (Hks' : forall k, k ∈ ks <->
            exists st, db w !! k = Some st /\ created_dm st <> Some today_dm).
  { intros k. rewrite Hks. split; intros (st & Hin & Hne); exists st;
      (split; [by apply elem_of_map_to_list|assumption]). }
  destruct (for_each_delitem ks w1) as (w2 & Hdel & Htr & Hen & Hdb).
  { apply Hnd, NoDup_fst_map_to_list. }
  { intros k (st & Hst & _)%Hks'. by exists st. }
  unfold mbind at 1, M_bind at 1. rewrite Hdel.
  unfold mbind at 1, M_bind at 1, db_len at 1.
  unfold logger, emit. eexists. split; [reflexivity|]. cbn [db trace entropy].
  split; [|split].
  - intros k st. rewrite Hdb. cbn [db w1].
    destruct (decide (k ∈ ks)) as [Hk|Hk].
    + split; [discriminate|]. intros [Hst Hdm].
      apply Hks' in Hk as (st' & Hst' & Hne). congruence.
    + split; [|tauto]. intros Hst. split; [assumption|].
      destruct (decide (created_dm st = Some today_dm)) as [|Hne]; [assumption|].
      exfalso. apply Hk, Hks'. eauto.
  - intros k st Hst Hne. rewrite Hdb.
    rewrite decide_True; [reflexivity|]. apply Hks'. eauto.
  - rewrite Htr. subst w1. cbn [trace]. rewrite <- !app_assoc. reflexivity.
Qed.

(** ** The merged batch *)

Section SortProperties.
Context {A : Type} (key : A -> Z).

Local Notation "'desc'" := (descending key).

Lemma insert_reverse_Permutation (x : A) (l : list A) :
  insert_reverse key x l ≡ₚ x :: l.
Proof.
  induction l as [|y l IH]; simpl; [reflexivity|].
  destruct (key x <? key y); [|reflexivity].
  rewrite IH. apply Permutation_swap.
Qed.

Lemma sort_reverse_Permutation (l : list A) : sort_reverse key l ≡ₚ l.
Proof.
  induction l as [|x l IH]; simpl; [reflexivity|].
  by rewrite insert_reverse_Permutation, IH.
Qed.

Lemma insert_reverse_sorted (x : A) (l : list A) :
  StronglySorted desc l -> StronglySorted desc (insert_reverse key x l).
Proof.
  induction 1 as [|y l Hl IH Hy]; simpl.
  - repeat constructor.
  - destruct (Z.ltb_spec (key x) (key y)) as [Hlt|Hge].
    + constructor; [assumption|].
      rewrite insert_reverse_Permutation. constructor; [unfold descending; lia|assumption].
    + constructor; [by constructor|].
      constructor; [assumption|].
      eapply Forall_impl; [exact Hy|]. unfold descending. intros z Hz. lia.
Qed.

Lemma sort_reverse_sorted (l : list A) : StronglySorted desc (sort_reverse key l).
Proof.
  induction l as [|x l IH]; simpl; [constructor|].
  by apply insert_reverse_sorted.
Qed.

(** Stability: among the elements of one key the order is that of the input. *)
Lemma insert_reverse_stable (t : Z) (x : A) (l : list A) :
  filter (fun a => key a = t) (insert_reverse key x l)
  = filter (fun a => key a = t) (x :: l).
Proof.
  induction l as [|y l IH]; simpl; [reflexivity|].
  destruct (Z.ltb_spec (key x) (key y)) as [Hlt|Hge]; [|reflexivity].
  rewrite (filter_cons _ y), IH, !(filter_cons _ x), (filter_cons _ y).
  destruct (decide (key x = t)), (decide (key y = t)); try reflexivity. lia.
Qed.

Lemma sort_reverse_stable (t : Z) (l : list A) :
  filter (fun a => key a = t) (sort_reverse key l) = filter (fun a => key a = t) l.
Proof.
  induction l as [|x l IH]; simpl; [reflexivity|].
  by rewrite insert_reverse_stable, !(filter_cons _ x), IH.
Qed.

Lemma StronglySorted_desc_lookup (l : list A) (i j : nat) (a b : A) :
  StronglySorted desc l -> (i < j)%nat ->
  l !! i = Some a -> l !! j = Some b -> key b <= key a.
Proof.
  intros Hl. revert i j. induction Hl as [|x l Hl IH Hx]; intros i j Hij Hi Hj.
  - by rewrite lookup_nil in Hi.
  - destruct j as [|j]; [lia|]. simpl in Hj. destruct i as [|i].
    + injection Hi as <-. rewrite Forall_forall in Hx.
      apply Hx. eapply list_elem_of_lookup_2, Hj.
    + simpl in Hi. apply (IH i j); [lia|assumption..].
Qed.
End SortProperties.

(** C9. The batch of [submissions_and_comments] is the concatenation of the
    submissions and the comments fetched, rearranged in descending order of
    [created_utc]: it is a permutation of the concatenation, each item is
    at least as recent as every later one, and items created at the same
    instant keep the order of the concatenation. *)
Theorem C9_merged_batch_sorted (new comments : list Post) :
  let batch := submissions_and_comments new comments in
  batch ≡ₚ (new ++ comments)%list
  /\ StronglySorted (fun p q => post_created_utc q <= post_created_utc p) batch
  /\ (forall t, filter (fun p => post_created_utc p = t) batch
                = filter (fun p => post_created_utc p = t) (new ++ comments)%list)
  /\ (forall i j p q, (i < j)%nat -> batch !! i = Some p -> batch !! j = Some q ->
        post_created_utc q <= post_created_utc p).
Proof.
  unfold submissions_and_comments. cbn [app]. cbv zeta.
  split; [apply sort_reverse_Permutation|].
  split; [apply sort_reverse_sorted|].
  split; [intros t; apply sort_reverse_stable|].
  intros i j p q. apply StronglySorted_desc_lookup, sort_reverse_sorted.
Qed.

(** ** The worker loop *)

Section Worker.
Variable env : Environment.

Lemma post_if_cakeday_sleeps (post : Post) (tnow : datetime) (w : World) :
  sleeps_of (trace (post_if_cakeday env post tnow w).2) = sleeps_of (trace w).
Proof.
  destruct (post_if_cakeday _ _ _ _) as [res w'] eqn:Hrun. simpl.
  apply post_if_cakeday_inv in Hrun.
  destruct (get_cakeday_status _ w) as [[st|e] w0] eqn:Hg;
    apply get_cakeday_status_inv in Hg as (Htr & _);
    [|destruct Hrun as [_ ->]; by rewrite Htr].
  rewrite <- Htr.
  inversion Hrun; subst; try reflexivity.
  - simpl. rewrite sleeps_of_app. simpl. by rewrite app_nil_r.
  - subst text called.
    match goal with H : match post_reply env ?p ?t with _ => _ end |- _ =>
      destruct (post_reply env p t); destruct H as (_ & _ & ->)
    end; rewrite !sleeps_of_app; simpl; by rewrite !app_nil_r.
Qed.

(** The thank-you detector adds to the trace at most a log line, a call of
    [post.reply] and a second log line, and changes the store only by
    resolving the author's record. *)
Lemma post_if_response_frame (post : Post) (tnow : datetime) (w : World) :
  let w' :=
    (post_if_response_to_cakeday_wish env post tnow w).2 in
  sleeps_of (trace w') = sleeps_of (trace w)
  /\ db w' = db (get_cakeday_status (post_author post) w).2.
Proof.
  cbv zeta.
  destruct (post_if_response_to_cakeday_wish _ _ _ _) as [res w'] eqn:Hrun.
  cbn [snd]. unfold post_if_response_to_cakeday_wish in Hrun.
  unfold mbind at 1, M_bind at 1 in Hrun.
  destruct (get_cakeday_status _ w) as [[st|e] w0] eqn:Hg;
    apply get_cakeday_status_inv in Hg as (Htr & _);
    [|injection Hrun as <- <-; by rewrite Htr].
  rewrite <- Htr. cbn [snd]. clear Htr.
  unfold reply, random_choice in Hrun. unfold_monad.
  repeat match type of Hrun with
  | context [match ?scrutinee with _ => _ end] =>
      is_plain scrutinee; destruct scrutinee
  end; injection Hrun as <- <-; cbn [db trace]; rewrite ?sleeps_of_app;
    cbn [sleeps_of]; rewrite ?app_nil_r; auto.
Qed.

Lemma run_item_sleeps (sub : string) (post : option Post) (tnow : datetime)
    (w : World) :
  sleeps_of (trace (run_item env sub post tnow w).2)
  = (sleeps_of (trace w)
     ++ if (hour tnow =? 23) && (45 <? minute tnow) then [60 * 20] else [])%list.
Proof.
  unfold run_item. unfold mbind at 1, M_bind at 1.
  set (pause := if (hour tnow =? 23) && (45 <? minute tnow) then [60 * 20] else []).
  match goal with |- context [let (r, w') := ?m w in _] =>
    assert (Hpause : exists w1, m w = (Ok tt, w1)
              /\ sleeps_of (trace w1) = (sleeps_of (trace w) ++ pause)%list)
  end.
  { subst pause. destruct ((hour tnow =? 23) && (45 <? minute tnow)).
    - unfold_monad. eexists. split; [reflexivity|]. simpl.
      rewrite <- app_assoc, sleeps_of_app. reflexivity.
    - unfold_monad. eexists. split; [reflexivity|]. by rewrite app_nil_r. }
  destruct Hpause as (w1 & -> & <-). clear pause.
  destruct post as [post|]; [|reflexivity].
  destruct (suspended (post_author post)).
  { unfold_monad. simpl. rewrite sleeps_of_app. simpl. by rewrite app_nil_r. }
  unfold mbind at 1, M_bind at 1, lift at 1.
  destruct (utcfromtimestamp _) as [time_posted|e]; [|reflexivity].
  unfold mbind at 1, M_bind at 1, logger at 1, emit at 1.
  assert (Hlog : forall e, sleeps_of (trace w1 ++ [Log DEBUG e]) = sleeps_of (trace w1)).
  { intros e. rewrite sleeps_of_app. simpl. by rewrite app_nil_r. }
  destruct (negb _); [simpl; apply Hlog|].
  destruct (post_author post); [|simpl; apply Hlog].
  unfold mbind at 1, M_bind at 1.
  match goal with |- context [post_if_cakeday env post tnow ?w2] =>
    pose proof (post_if_cakeday_sleeps post tnow w2) as Hcake;
    destruct (post_if_cakeday env post tnow w2) as [[[]|e] w3]
  end; simpl in Hcake; rewrite Hlog in Hcake; [|simpl; congruence].
  destruct (post_if_response_frame post tnow w3) as [Hthank _].
  rewrite Hthank. assumption.
Qed.

(** C7. Given a time of day, one turn of the loop of [run] calls
    [time.sleep] once, for 20 minutes, when [tnow] is 23:46:00 or later
    (hour 23 and minute above 45: the last 14 minutes before midnight),
    and does not call it at any earlier time of day. *)
Theorem C7_sleep_window (sub : string) (post : option Post) (tnow : datetime)
    (w : World) :
  valid_time tnow ->
  let w' := (run_item env sub post tnow w).2 in
  (86400 - 14 * 60 <= seconds_of_day tnow ->
     sleeps_of (trace w') = (sleeps_of (trace w) ++ [20 * 60])%list)
  /\ (seconds_of_day tnow < 86400 - 14 * 60 ->
      sleeps_of (trace w') = sleeps_of (trace w)).
Proof.
  intros (Hh & Hm & Hs) w'. subst w'. rewrite run_item_sleeps.
  unfold seconds_of_day.
  destruct (Z.eqb_spec (hour tnow) 23) as [H23|H23];
    destruct (Z.ltb_spec 45 (minute tnow)) as [H45|H45]; simpl;
    split; intros Hsec; rewrite ?app_nil_r; try reflexivity; lia.
Qed.
End Worker.

(** ** The recovery wrapper *)

Section Recovery.
Variable env : Environment.

Local Notation "'wrapper'" := (run_with_exception_handling env).

(** [logger.catch] lets no [Exception] through. *)
Lemma logger_catch_raises (body : M unit) (w w' : World) (e : exn) :
  logger_catch body w = (Raise e, w') -> is_Exception e = false.
Proof.
  unfold logger_catch, try_except.
  destruct (body w) as [[[]|e0] w0]; [discriminate|].
  destruct (is_Exception e0) eqn:He0.
  - unfold logger, emit. discriminate.
  - unfold raise. congruence.
Qed.

Lemma wrapper_raises (sub : string) (streams : list (list Pulse)) (depth : nat)
    (w w' : World) (e : exn) :
  wrapper sub streams depth w = (Raise e, w') -> is_Exception e = false.
Proof. destruct streams; apply logger_catch_raises. Qed.

(** One failure of the worker loop, seen from the wrapper. *)
Lemma wrapper_step (sub : string) (stream : list Pulse) (rest : list (list Pulse))
    (depth : nat) (w w1 : World) (e : exn) :
  run env sub stream
    (mkWorld (db w) (trace w ++ [Enter depth]) (entropy w)) = (Raise e, w1) ->
  let warned :=
    mkWorld (db w1) ((trace w1 ++ [Log WARNING (Retrying e)]) ++ [Sleep 60])
            (entropy w1) in
  wrapper sub (stream :: rest) depth w
  = if is_Exception e
    then if (depth <? nesting_limit env)%nat
         then wrapper sub rest (S depth) warned
         else (Ok tt,
               mkWorld (db w1) (trace warned ++ [Log ERROR (Caught RecursionError)])
                       (entropy w1))
    else (Raise KeyboardInterrupt, w1).
Proof.
  intros Hrun warned. cbn [run_with_exception_handling].
  unfold logger_catch. unfold try_except at 1.
  unfold mbind at 1, M_bind at 1, emit at 1, try_except at 1.
  rewrite Hrun.
  assert (Hretry :
    (logger WARNING (Retrying e);; sleep 60;;
     if (depth <? nesting_limit env)%nat
     then wrapper sub rest (S depth)
     else raise RecursionError) w1
    = if (depth <? nesting_limit env)%nat
      then wrapper sub rest (S depth) warned
      else (Raise RecursionError, warned)).
  { unfold_monad. cbn [db trace entropy]. fold warned.
    destruct (depth <? nesting_limit env)%nat; reflexivity. }
  destruct e; cbn [is_Exception]; try reflexivity; rewrite Hretry;
    (destruct (depth <? nesting_limit env)%nat; [|reflexivity]);
    (destruct (wrapper sub rest (S depth) warned) as [[[]|e'] w2] eqn:Hnested;
     [reflexivity|]); by rewrite (wrapper_raises _ _ _ _ _ _ Hnested).
Qed.

(** C8. When the worker loop raises an [Exception], the wrapper logs a
    warning naming it and sleeps 60 seconds, whatever the depth; then, if
    the recursion limit admits a further invocation, it calls itself for
    the next stream, one invocation deeper, and otherwise the
    [RecursionError] of that call is logged by [logger.catch] and the
    wrapper returns, which ends the worker.  When the worker loop raises
    [KeyboardInterrupt] the wrapper raises [KeyboardInterrupt], with no
    warning, no sleep and no further call. *)
Theorem C8_recovery_wrapper (sub : string) (stream : list Pulse)
    (rest : list (list Pulse)) (depth : nat) (w w1 : World) (e : exn) :
  run env sub stream
    (mkWorld (db w) (trace w ++ [Enter depth]) (entropy w)) = (Raise e, w1) ->
  let warned :=
    mkWorld (db w1) ((trace w1 ++ [Log WARNING (Retrying e)]) ++ [Sleep 60])
            (entropy w1) in
  (is_Exception e = true -> (depth < nesting_limit env)%nat ->
     wrapper sub (stream :: rest) depth w = wrapper sub rest (S depth) warned)
  /\ (is_Exception e = true -> (nesting_limit env <= depth)%nat ->
      wrapper sub (stream :: rest) depth w
      = (Ok tt,
         mkWorld (db w1) (trace warned ++ [Log ERROR (Caught RecursionError)])
                 (entropy w1)))
  /\ (e = KeyboardInterrupt ->
      wrapper sub (stream :: rest) depth w = (Raise KeyboardInterrupt, w1)).
Proof.
  intros Hrun warned. rewrite (wrapper_step _ _ rest _ _ _ _ Hrun).
  split; [|split].
  - intros -> Hroom%Nat.ltb_lt. by rewrite Hroom.
  - intros -> Hfull%Nat.ltb_ge. by rewrite Hfull.
  - by intros ->.
Qed.
End Recovery.

(** ** Soundness of the wished years along every run *)

Section Soundness.
Variable env : Environment.

Lemma keeps_sound_ret {A} (a : A) : keeps_sound (mret a).
Proof. intros w Hw. exact Hw. Qed.

Lemma keeps_sound_raise {A} (e : exn) : keeps_sound (@raise A e).
Proof. intros w Hw. exact Hw. Qed.

Lemma keeps_sound_lift {A} (r : result A) : keeps_sound (lift r).
Proof. intros w Hw. exact Hw. Qed.

Lemma keeps_sound_emit (e : Event) : keeps_sound (emit e).
Proof. intros w Hw. exact Hw. Qed.

Lemma keeps_sound_bind {A B} (m : M A) (f : A -> M B) :
  keeps_sound m -> (forall a, keeps_sound (f a)) -> keeps_sound (m ≫= f).
Proof.
  intros Hm Hf w Hw. unfold mbind, M_bind.
  specialize (Hm w Hw). destruct (m w) as [[a|e] w1]; simpl in Hm.
  - by apply Hf.
  - exact Hm.
Qed.

Lemma keeps_sound_try_except {A} (body : M A) (handler : exn -> M A) :
  keeps_sound body -> (forall e, keeps_sound (handler e)) ->
  keeps_sound (try_except body handler).
Proof.
  intros Hb Hh w Hw. unfold try_except.
  specialize (Hb w Hw). destruct (body w) as [[a|e] w1]; simpl in Hb.
  - exact Hb.
  - by apply Hh.
Qed.

Lemma keeps_sound_logger_catch (body : M unit) :
  keeps_sound body -> keeps_sound (logger_catch body).
Proof.
  intros Hb. apply keeps_sound_try_except; [assumption|].
  intros e. destruct (is_Exception e);
    [apply keeps_sound_emit|apply keeps_sound_raise].
Qed.

Lemma keeps_sound_for_each {A} (l : list A) (body : A -> M unit) :
  (forall x, keeps_sound (body x)) -> keeps_sound (for_each l body).
Proof.
  intros Hb. induction l as [|x l IH]; simpl.
  - apply keeps_sound_ret.
  - apply keeps_sound_bind; [apply Hb|]. intros _. exact IH.
Qed.

Lemma keeps_sound_post_if_cakeday (post : Post) (tnow : datetime) :
  keeps_sound (post_if_cakeday env post tnow).
Proof. intros w. apply post_if_cakeday_sound. Qed.

Lemma keeps_sound_post_if_response (post : Post) (tnow : datetime) :
  keeps_sound (post_if_response_to_cakeday_wish env post tnow).
Proof.
  intros w Hw.
  destruct (post_if_response_frame env post tnow w) as [_ ->].
  by apply get_cakeday_status_sound.
Qed.

Lemma keeps_sound_run_item (sub : string) (post : option Post) (tnow : datetime) :
  keeps_sound (run_item env sub post tnow).
Proof.
  unfold run_item. apply keeps_sound_bind.
  { destruct (_ && _); [|apply keeps_sound_ret].
    apply keeps_sound_bind; [apply keeps_sound_emit|]. intros _. apply keeps_sound_emit. }
  intros _. destruct post as [post|]; [|apply keeps_sound_ret].
  destruct (suspended _); [apply keeps_sound_emit|].
  apply keeps_sound_bind; [apply keeps_sound_lift|]. intros time_posted.
  apply keeps_sound_bind; [apply keeps_sound_emit|]. intros _.
  destruct (negb _); [apply keeps_sound_ret|].
  destruct (post_author post); [|apply keeps_sound_ret].
  apply keeps_sound_bind; [apply keeps_sound_post_if_cakeday|]. intros _.
  apply keeps_sound_post_if_response.
Qed.

Lemma keeps_sound_run (sub : string) (stream : list Pulse) :
  keeps_sound (run env sub stream).
Proof.
  unfold run. apply keeps_sound_bind; [apply keeps_sound_emit|]. intros _.
  apply keeps_sound_for_each. intros [post tnow|e];
    [apply keeps_sound_run_item|apply keeps_sound_raise].
Qed.

(** A worker started on a sound store leaves it sound, whatever its streams
    deliver and however often it restarts. *)
Lemma keeps_sound_worker (sub : string) (streams : list (list Pulse)) (depth : nat) :
  keeps_sound (run_with_exception_handling env sub streams depth).
Proof.
  revert depth. induction streams as [|stream rest IH]; intros depth;
    cbn [run_with_exception_handling]; apply keeps_sound_logger_catch;
    (apply keeps_sound_bind; [apply keeps_sound_emit|]); intros _.
  - apply keeps_sound_run.
  - apply keeps_sound_try_except; [apply keeps_sound_run|].
    intros e. destruct e; cbn [is_Exception]; try apply keeps_sound_raise;
      (apply keeps_sound_bind; [apply keeps_sound_emit|]); intros _;
      (apply keeps_sound_bind; [apply keeps_sound_emit|]); intros _;
      (destruct (depth <? nesting_limit env)%nat; [apply IH|apply keeps_sound_raise]).
Qed.

Lemma scan_old_cakedays_world (today_dm : Z * Z) (items : list (string * Status.t))
    (to_remove : list string) (w : World) :
  (scan_old_cakedays today_dm items to_remove w).2 = w.
Proof.
  revert to_remove. induction items as [|[k st] items IH]; intros to_remove;
    [reflexivity|].
  cbn [scan_old_cakedays]. unfold mbind at 1, M_bind at 1, lift at 1.
  destruct (utcfromtimestamp _); [|reflexivity].
  destruct (decide _); apply IH.
Qed.

Lemma for_each_delitem_lookup (ks : list string) (w : World) (k : string)
    (st : Status.t) :
  db (for_each ks db_delitem w).2 !! k = Some st -> db w !! k = Some st.
Proof.
  revert w. induction ks as [|k0 ks IH]; intros w; [auto|].
  cbn [for_each]. unfold mbind at 1, M_bind at 1, db_delitem at 1.
  destruct (db w !! k0) eqn:Hk0; [|auto].
  intros Hst%IH. simpl in Hst.
  apply lookup_delete_Some in Hst as [_ Hst]. exact Hst.
Qed.

(** The purge only removes records. *)
Lemma keeps_sound_remove_old_cakedays (tnow : datetime) :
  keeps_sound (remove_old_cakedays tnow).
Proof.
  unfold remove_old_cakedays.
  apply keeps_sound_bind; [apply keeps_sound_emit|]. intros _.
  apply keeps_sound_bind; [intros w Hw; exact Hw|]. intros n.
  apply keeps_sound_bind; [apply keeps_sound_emit|]. intros _.
  apply keeps_sound_bind; [intros w Hw; exact Hw|]. intros items.
  apply keeps_sound_bind.
  { intros w Hw. by rewrite scan_old_cakedays_world. }
  intros to_remove. apply keeps_sound_bind.
  { intros w Hw k st y Hst Hy. apply for_each_delitem_lookup in Hst. eauto. }
  intros _. apply keeps_sound_bind; [intros w Hw; exact Hw|]. intros n'.
  apply keeps_sound_emit.
Qed.
End Soundness.

(** ** The properties at sample inputs *)

Example utcfromtimestamp_2015_03_14 :
  utcfromtimestamp 1426327200 = Ok (mkdatetime 2015 3 14 10 0 0).
Proof. reflexivity. Qed.

Example utcfromtimestamp_leap_day :
  utcfromtimestamp 1456746300 = Ok (mkdatetime 2016 2 29 11 45 0).
Proof. reflexivity. Qed.

Example ordinal_samples (negative : Z -> result string) :
  ordinal negative <$> [1; 2; 3; 9; 11; 21; 112]
  = [Ok "1st"; Ok "2nd"; Ok "3rd"; Ok "9th"; Ok "11th"; Ok "21st"; Ok "112th"].
Proof. reflexivity. Qed.

Example thanks_in_any_case :
  contains "thank" (lower_ascii "Thanks!") = true
  /\ contains "thank" (lower_ascii "THANK YOU") = true
  /\ contains "thank" (lower_ascii "cheers") = false.
Proof. repeat split. Qed.

(** A new user is recorded, found again, and a different creation time is
    refused. *)
Lemma C5_get_cakeday_status_witness :
  exists w1,
    get_cakeday_status (Some Sample.alice) (Sample.world ∅)
    = (Ok (Status.mk 1426327200 []), w1)
    /\ get_cakeday_status (Some Sample.alice) w1 = (Ok (Status.mk 1426327200 []), w1)
    /\ get_cakeday_status (Some (Redditor.mk "alice" 1426327201 None)) w1
       = (Raise AssertionError, w1).
Proof.
  destruct (C5_get_cakeday_status (Sample.world ∅) Sample.alice)
    as (w1 & Hnew & _ & _ & Hsame & Hother); [reflexivity|].
  exists w1. split; [exact Hnew|]. split.
  - apply Hsame; reflexivity.
  - apply Hother; [reflexivity|]. simpl. lia.
Defined.

(** alice, already wished in 2024, is not wished again; and once a wish is
    posted for her, the same post delivered again does nothing. *)
Lemma C1_no_second_wish_witness :
  post_if_cakeday Sample.env (Sample.submission Sample.alice) Sample.now
    (Sample.world Sample.alice_wished)
  = (Ok tt, Sample.world Sample.alice_wished)
  /\ (let w := (post_if_cakeday Sample.env (Sample.submission Sample.alice)
                  Sample.now (Sample.world Sample.alice_unwished)).2 in
      post_if_cakeday Sample.env (Sample.submission Sample.alice) Sample.now w
      = (Ok tt, w)).
Proof.
  destruct (C1_no_second_wish Sample.env) as [Hwished Hagain]. split.
  - destruct (Hwished (Sample.submission Sample.alice) Sample.now
                (Sample.world Sample.alice_wished) Sample.alice
                (Status.mk 1426327200 [2024]))
      as (res & -> & Hres); [reflexivity|reflexivity|apply list_elem_of_here|].
    rewrite Hres; reflexivity.
  - cbv zeta.
    apply (Hagain (Sample.submission Sample.alice) Sample.now
             (Sample.world Sample.alice_unwished)); [reflexivity| |reflexivity..].
    vm_compute. discriminate.
Defined.

(** bob, created in January 2024, gets no wish in March 2024. *)
Lemma C6_first_year_exclusion_witness :
  let w' := (post_if_cakeday Sample.env (Sample.submission Sample.bob)
               Sample.now (Sample.world ∅)).2 in
  replies_of (trace w') = [] /\ years_wished (db w') "bob" = [].
Proof.
  destruct (C6_first_year_exclusion Sample.env (Sample.submission Sample.bob)
              Sample.now (Sample.world ∅) Sample.bob (mkdatetime 2024 1 10 0 0 0))
    as (_ & Hreplies & Hyears); [reflexivity..|].
  cbv zeta. split; [exact Hreplies|exact (Hyears "bob")].
Defined.

(** alice, created 2015-03-14, is wished on 2024-03-14 her "9^th" cake day. *)
Lemma C3_cakeday_match_witness :
  let w' := (post_if_cakeday Sample.env (Sample.submission Sample.alice)
               Sample.now (Sample.world Sample.alice_unwished)).2 in
  ordinal (ordinal_negative Sample.env) (2024 - 2015) = Ok "9th"
  /\ exists emoji, emoji ∈ cakeday_emojis
       /\ replies_of (trace w')
          = [(Sample.submission Sample.alice, "Happy 9^th cake day! " +:+ emoji)].
Proof.
  destruct (C3_cakeday_match Sample.env (Sample.submission Sample.alice)
              Sample.now (Sample.world Sample.alice_unwished) Sample.alice
              (Status.mk 1426327200 []) (mkdatetime 2015 3 14 10 0 0))
    as (_ & Hfires & _ & Htext);
    [reflexivity|reflexivity|reflexivity|reflexivity|reflexivity
    |simpl; lia|simpl; lia|apply not_elem_of_nil|].
  destruct (Htext (proj2 Hfires eq_refl)) as (suffix & emoji & Hord & _ & Hemoji & Hreplies).
  cbv zeta. split; [reflexivity|].
  assert (suffix = "th") as -> by (vm_compute in Hord; congruence).
  exists emoji. split; [exact Hemoji|exact Hreplies].
Defined.

(** alice thanks the bot for its wish on her cake day and is answered once;
    the same comment with a reply of the bot under it is not answered. *)
Lemma C2_thank_you_acknowledgment_witness :
  (exists text,
     text ∈ thank_you_options
     /\ replies_of (trace (post_if_response_to_cakeday_wish Sample.env Sample.thanks Sample.now
                             (Sample.world Sample.alice_unwished)).2)
        = [(Sample.thanks, text)])
  /\ (let answered :=
        Comment (Some Sample.alice) 1710406200 "Thank you so much" Sample.wish
                [Some Sample.cadabot] in
      replies_of (trace (post_if_response_to_cakeday_wish Sample.env answered Sample.now
                           (Sample.world Sample.alice_unwished)).2)
      = []).
Proof.
  assert (Hcons : forall post, post_author post = Some Sample.alice ->
            record_consistent (db (Sample.world Sample.alice_unwished))
                              (post_author post)).
  { intros post -> a st [= <-] Hst. vm_compute in Hst.
    injection Hst as <-. reflexivity. }
  split.
  - destruct (C2_thank_you_acknowledgment Sample.env
                Sample.thanks Sample.now (Sample.world Sample.alice_unwished))
      as [Hiff _].
    apply Hiff. split; [exact (Hcons Sample.thanks eq_refl)|].
    split; [reflexivity|]. split; [reflexivity|].
    split; [by exists "Thank you so much"|].
    split; [by exists "Thank you so much"|].
    split; [by exists Sample.wish|].
    split; [by exists Sample.wish, (Sample.submission Sample.alice)|constructor].
  - cbv zeta.
    match goal with |- replies_of (trace (post_if_response_to_cakeday_wish _ ?p _ _).2) = _ =>
      destruct (C2_thank_you_acknowledgment Sample.env
                  p Sample.now (Sample.world Sample.alice_unwished)) as [Hiff Hnone]
    end.
    apply Hnone. intros Hack.
    apply Hiff in Hack as (_ & _ & _ & _ & _ & _ & _ & Hreplies).
    inversion Hreplies as [|r l Hbot _]. vm_compute in Hbot. discriminate.
Defined.

(** alice thanks the bot for its wish on her cake day and all seven
    conditions hold, but the record filed under her name has a creation
    time one second off (on the same day, so that the anniversary of the
    record is today as well): the call stops at the assertion of record
    resolution and nothing is sent. *)
Lemma C2_misfiled_record_unacknowledged :
  let w := Sample.world Sample.alice_misfiled in
  (anniversary_is_today Sample.thanks Sample.now
   /\ is_reply Sample.thanks
   /\ says_thank Sample.env Sample.thanks
   /\ sentiment_positive Sample.env Sample.thanks
   /\ parent_by_bot Sample.env Sample.thanks
   /\ grandparent_by_author Sample.env Sample.thanks
   /\ no_reply_by_bot Sample.env Sample.thanks)
  /\ created_dm (Status.mk 1426327201 []) = Some (day Sample.now, month Sample.now)
  /\ post_if_response_to_cakeday_wish Sample.env Sample.thanks Sample.now w
     = (Raise AssertionError, w)
  /\ replies_of
       (trace (post_if_response_to_cakeday_wish Sample.env Sample.thanks Sample.now w).2)
     = [].
Proof.
  cbv zeta. split; [|split; [reflexivity|split; reflexivity]].
  split; [reflexivity|]. split; [reflexivity|].
  split; [by exists "Thank you so much"|].
  split; [by exists "Thank you so much"|].
  split; [by exists Sample.wish|].
  split; [by exists Sample.wish, (Sample.submission Sample.alice)|constructor].
Qed.

(** Of three records created on March 14, March 14 and March 20, a purge
    on March 14 removes the third and keeps the first two. *)
Lemma C4_purge_witness :
  exists w',
    remove_old_cakedays Sample.now (Sample.world Sample.three_records) = (Ok tt, w')
    /\ db w' !! "a" = Some (Status.mk 1426327200 [])
    /\ db w' !! "b" = Some (Status.mk 1457949600 [])
    /\ db w' !! "c" = None.
Proof.
  destruct (C4_purge Sample.now (Sample.world Sample.three_records))
    as (w' & Hrun & Hkept & Hgone & _).
  { assert (Hall : map_Forall (fun _ st => is_Some (created_dm st))
                                Sample.three_records)
      by (unfold Sample.three_records;
          apply map_Forall_insert_2; [by eexists|];
          apply map_Forall_insert_2; [by eexists|];
          apply map_Forall_singleton; by eexists).
    intros k st Hst. exact (Hall k st Hst). }
  exists w'. split; [exact Hrun|]. split; [|split].
  - apply Hkept. split; reflexivity.
  - apply Hkept. split; reflexivity.
  - apply (Hgone "c" (Status.mk 1490004000 [])); [reflexivity|]. vm_compute. discriminate.
Defined.

(** At 23:50:00 a turn of the loop sleeps 20 minutes; at 09:00:00 it does
    not sleep. *)
Lemma C7_sleep_window_witness :
  sleeps_of (trace (run_item Sample.env "cakeday" None
                      (mkdatetime 2024 3 14 23 50 0) (Sample.world ∅)).2) = [1200]
  /\ sleeps_of (trace (run_item Sample.env "cakeday" None
                         Sample.now (Sample.world ∅)).2) = [].
Proof.
  split.
  - apply (C7_sleep_window Sample.env "cakeday" None
             (mkdatetime 2024 3 14 23 50 0) (Sample.world ∅)).
    + unfold valid_time. simpl. lia.
    + unfold seconds_of_day. simpl. lia.
  - apply (C7_sleep_window Sample.env "cakeday" None
             Sample.now (Sample.world ∅)).
    + unfold valid_time. simpl. lia.
    + unfold seconds_of_day. simpl. lia.
Defined.

(** At 23:45:30, within the last 15 minutes before midnight, a turn of the
    loop does not sleep. *)
Lemma C7_no_sleep_at_23_45 :
  let tnow := mkdatetime 2024 3 14 23 45 30 in
  valid_time tnow
  /\ 86400 - 15 * 60 <= seconds_of_day tnow
  /\ sleeps_of (trace (run_item Sample.env "cakeday"
                         None tnow (Sample.world ∅)).2) = [].
Proof.
  cbv zeta. unfold valid_time, seconds_of_day. simpl.
  split; [lia|]. split; [lia|reflexivity].
Qed.

(** A feed failure is answered by a warning, a sleep of 60 seconds and a
    nested call, and [KeyboardInterrupt] ends the worker; with no room for a
    second invocation, the worker ends after the warning and the sleep. *)
Lemma C8_recovery_wrapper_witness :
  run_with_exception_handling Sample.env "cakeday"
    [[Fault (FeedError "timeout")]; [Fault KeyboardInterrupt]] 1 (Sample.world ∅)
  = (Raise KeyboardInterrupt,
     mkWorld ∅ [Enter 1; Log INFO (Running "cakeday");
                Log WARNING (Retrying (FeedError "timeout")); Sleep 60;
                Enter 2; Log INFO (Running "cakeday")] [])
  /\ run_with_exception_handling Sample.env_tight "cakeday"
       [[Fault (FeedError "timeout")]; []] 1 (Sample.world ∅)
     = (Ok tt,
        mkWorld ∅ [Enter 1; Log INFO (Running "cakeday");
                   Log WARNING (Retrying (FeedError "timeout")); Sleep 60;
                   Log ERROR (Caught RecursionError)] []).
Proof.
  split.
  - destruct (C8_recovery_wrapper Sample.env "cakeday"
                [Fault (FeedError "timeout")] [[Fault KeyboardInterrupt]] 1
                (Sample.world ∅)
                (mkWorld ∅ [Enter 1; Log INFO (Running "cakeday")] [])
                (FeedError "timeout") eq_refl) as (Hretry & _ & _).
    rewrite (Hretry eq_refl (proj1 (Nat.ltb_lt 1 400) eq_refl)).
    destruct (C8_recovery_wrapper Sample.env "cakeday"
                [Fault KeyboardInterrupt] [] 2
                (mkWorld ∅ [Enter 1; Log INFO (Running "cakeday");
                            Log WARNING (Retrying (FeedError "timeout")); Sleep 60] [])
                (mkWorld ∅ [Enter 1; Log INFO (Running "cakeday");
                            Log WARNING (Retrying (FeedError "timeout")); Sleep 60;
                            Enter 2; Log INFO (Running "cakeday")] [])
                KeyboardInterrupt eq_refl) as (_ & _ & Hstop).
    exact (Hstop eq_refl).
  - destruct (C8_recovery_wrapper Sample.env_tight "cakeday"
                [Fault (FeedError "timeout")] [[]] 1
                (Sample.world ∅)
                (mkWorld ∅ [Enter 1; Log INFO (Running "cakeday")] [])
                (FeedError "timeout") eq_refl) as (_ & Hends & _).
    exact (Hends eq_refl (le_n 1)).
Defined.

(** One failure of the feed is enough: the worker loop that follows is
    started by a second invocation, made inside the handler of the first. *)
Lemma C8_one_failure_nests : ~ restart_is_iterative.
Proof.
  intros Hiterative.
  assert (Hdepth : 2%nat = 1%nat); [|discriminate Hdepth].
  apply (Hiterative Sample.env "cakeday" [[Fault (FeedError "timeout")]; []] ∅ []).
  apply list_elem_of_In. vm_compute. tauto.
Qed.

(** Two submissions and two comments, merged: the batch is in descending
    order of creation time. *)
Lemma C9_merged_batch_sorted_witness :
  StronglySorted (fun p q => post_created_utc q <= post_created_utc p)
    (submissions_and_comments
       [Submission None 30; Submission None 10]
       [Submission None 50; Submission None 30]).
Proof.
  exact (proj1 (proj2 (C9_merged_batch_sorted
                         [Submission None 30; Submission None 10]
                         [Submission None 50; Submission None 30]))).
Defined.

Example merged_batch_sample :
  post_created_utc <$> submissions_and_comments
    [Submission None 30; Submission None 10] [Submission None 50; Submission None 30]
  = [50; 30; 30; 10].
Proof. reflexivity. Qed.

(** leapling, created 2016-02-29, posts in 2023: both detectors raise. *)
Lemma C10_leap_day_raises_witness :
  post_if_cakeday Sample.env (Sample.submission Sample.leapling)
    Sample.common_year (Sample.world Sample.leapling_stored)
  = (Raise ValueError, Sample.world Sample.leapling_stored)
  /\ post_if_response_to_cakeday_wish Sample.env
       (Sample.submission Sample.leapling) Sample.common_year
       (Sample.world Sample.leapling_stored)
     = (Raise ValueError, Sample.world Sample.leapling_stored).
Proof.
  refine (proj2 (C10_leap_day_raises Sample.env
                   (Sample.submission Sample.leapling) Sample.common_year
                   (Sample.world Sample.leapling_stored) Sample.leapling
                   (Status.mk 1456746300 [2020]) (mkdatetime 2016 2 29 11 45 0)
                   _ eq_refl eq_refl eq_refl eq_refl eq_refl eq_refl eq_refl)).
  intros k st y Hst Hy.
  unfold Sample.world, Sample.leapling_stored in Hst. cbn [db] in Hst.
  apply lookup_singleton_Some in Hst as [_ <-].
  apply list_elem_of_singleton in Hy as ->.
  exists (mkdatetime 2016 2 29 11 45 0), (mkdatetime 2020 2 29 11 45 0).
  split; reflexivity.
Defined.

(** * Further properties *)

(** ** Properties of the store maintained by every computation *)

Section Maintained.
Variable env : Environment.
Variable I : gmap string Status.t -> Prop.

Lemma keeps_pure {A} (m : M A) :
  (forall w, db (m w).2 = db w) -> keeps I m.
Proof. intros Hm w Hw. by rewrite Hm. Qed.

Lemma keeps_emit (e : Event) : keeps I (emit e).
Proof. by apply keeps_pure. Qed.

Lemma keeps_bind {A B} (m : M A) (f : A -> M B) :
  keeps I m -> (forall a, keeps I (f a)) -> keeps I (m ≫= f).
Proof.
  intros Hm Hf w Hw. unfold mbind, M_bind.
  specialize (Hm w Hw). destruct (m w) as [[a|e] w1]; simpl in Hm.
  - by apply Hf.
  - exact Hm.
Qed.

Lemma keeps_try_except {A} (body : M A) (handler : exn -> M A) :
  keeps I body -> (forall e, keeps I (handler e)) -> keeps I (try_except body handler).
Proof.
  intros Hb Hh w Hw. unfold try_except.
  specialize (Hb w Hw). destruct (body w) as [[a|e] w1]; simpl in Hb.
  - exact Hb.
  - by apply Hh.
Qed.

Lemma keeps_for_each {A} (l : list A) (body : A -> M unit) :
  (forall x, keeps I (body x)) -> keeps I (for_each l body).
Proof.
  intros Hb. induction l as [|x l IH]; simpl.
  - by apply keeps_pure.
  - apply keeps_bind; [apply Hb|]. intros _. exact IH.
Qed.

(** The store is written by record resolution and by the cake-day detector
    only: what both maintain, a worker maintains. *)
Hypothesis keeps_get_cakeday_status :
  forall author, keeps I (get_cakeday_status author).
Hypothesis keeps_post_if_cakeday :
  forall post tnow, keeps I (post_if_cakeday env post tnow).

Lemma keeps_post_if_response (post : Post) (tnow : datetime) :
  keeps I (post_if_response_to_cakeday_wish env post tnow).
Proof.
  intros w Hw.
  destruct (post_if_response_frame env post tnow w) as [_ ->].
  by apply keeps_get_cakeday_status.
Qed.

Lemma keeps_run_item (sub : string) (post : option Post) (tnow : datetime) :
  keeps I (run_item env sub post tnow).
Proof.
  unfold run_item. apply keeps_bind.
  { destruct (_ && _); [|by apply keeps_pure].
    apply keeps_bind; [apply keeps_emit|]. intros _. apply keeps_emit. }
  intros _. destruct post as [post|]; [|by apply keeps_pure].
  destruct (suspended _); [apply keeps_emit|].
  apply keeps_bind; [by apply keeps_pure|]. intros time_posted.
  apply keeps_bind; [apply keeps_emit|]. intros _.
  destruct (negb _); [by apply keeps_pure|].
  destruct (post_author post); [|by apply keeps_pure].
  apply keeps_bind; [apply keeps_post_if_cakeday|]. intros _.
  apply keeps_post_if_response.
Qed.

Lemma keeps_run (sub : string) (stream : list Pulse) :
  keeps I (run env sub stream).
Proof.
  unfold run. apply keeps_bind; [apply keeps_emit|]. intros _.
  apply keeps_for_each. intros [post tnow|e];
    [apply keeps_run_item|by apply keeps_pure].
Qed.

Lemma keeps_run_with_exception_handling (sub : string) (streams : list (list Pulse))
    (depth : nat) :
  keeps I (run_with_exception_handling env sub streams depth).
Proof.
  revert depth. induction streams as [|stream rest IH]; intros depth;
    cbn [run_with_exception_handling]; unfold logger_catch;
    (apply keeps_try_except;
     [|intros e; destruct (is_Exception e); [apply keeps_emit|by apply keeps_pure]]);
    (apply keeps_bind; [apply keeps_emit|]); intros _.
  - apply keeps_run.
  - apply keeps_try_except; [apply keeps_run|].
    intros e. destruct e; cbn [is_Exception]; try (by apply keeps_pure);
      (apply keeps_bind; [apply keeps_emit|]); intros _;
      (apply keeps_bind; [apply keeps_emit|]); intros _;
      (destruct (depth <? nesting_limit env)%nat; [apply IH|by apply keeps_pure]).
Qed.
End Maintained.

(** ** Records are never lost or rewritten by a worker *)

Lemma status_extends_refl (st : Status.t) : status_extends st st.
Proof. split; [reflexivity|]. by exists []; rewrite app_nil_r. Qed.

Lemma store_extends_refl (d : gmap string Status.t) : store_extends d d.
Proof. intros k st Hst. exists st. split; [assumption|apply status_extends_refl]. Qed.

Lemma store_extends_trans (d1 d2 d3 : gmap string Status.t) :
  store_extends d1 d2 -> store_extends d2 d3 -> store_extends d1 d3.
Proof.
  intros H12 H23 k st Hst.
  destruct (H12 k st Hst) as (st2 & Hst2 & Hc2 & l2 & Hy2).
  destruct (H23 k st2 Hst2) as (st3 & Hst3 & Hc3 & l3 & Hy3).
  exists st3. split; [assumption|]. split; [congruence|].
  exists (l2 ++ l3)%list. by rewrite Hy3, Hy2, app_assoc.
Qed.

Lemma store_extends_insert_new (d : gmap string Status.t) (k : string) (st : Status.t) :
  d !! k = None -> store_extends d (<[k := st]> d).
Proof.
  intros Hk k' st' Hst'. exists st'.
  split; [|apply status_extends_refl].
  rewrite lookup_insert_ne; [assumption|congruence].
Qed.

Lemma store_extends_insert (d : gmap string Status.t) (k : string) (st st' : Status.t) :
  d !! k = Some st -> status_extends st st' -> store_extends d (<[k := st']> d).
Proof.
  intros Hk Hext k0 st0 Hst0. destruct (decide (k = k0)) as [<-|Hne].
  - exists st'. rewrite lookup_insert_eq. split; [reflexivity|congruence].
  - exists st0. rewrite lookup_insert_ne by assumption.
    split; [assumption|apply status_extends_refl].
Qed.

Lemma get_cakeday_status_extends (author : option Redditor.t) (w : World) :
  store_extends (db w) (db (get_cakeday_status author w).2).
Proof.
  destruct (get_cakeday_status author w) as [res w'] eqn:Hg.
  apply get_cakeday_status_inv in Hg as (_ & _ & _ & Hres).
  destruct res as [st|e]; simpl.
  - destruct Hres as (a & _ & _ & _ & [->|(Hnone & _ & ->)]).
    + apply store_extends_refl.
    + by apply store_extends_insert_new.
  - destruct Hres as [-> _]. apply store_extends_refl.
Qed.

Section Extends.
Variable env : Environment.

Lemma post_if_cakeday_extends (post : Post) (tnow : datetime) (w : World) :
  store_extends (db w) (db (post_if_cakeday env post tnow w).2).
Proof.
  destruct (post_if_cakeday _ _ _ _) as [res w'] eqn:Hrun. simpl.
  apply post_if_cakeday_inv in Hrun.
  pose proof (get_cakeday_status_extends (post_author post) w) as Hext.
  destruct (get_cakeday_status _ w) as [[st|e] w0] eqn:Hg; simpl in Hext;
    [|by destruct Hrun as [_ ->]].
  apply get_cakeday_status_inv in Hg as (_ & _ & _ & a & Ha & Hst & _).
  inversion Hrun; subst; try assumption.
  subst text called.
  match goal with H : match post_reply env ?p ?t with _ => _ end |- _ =>
    destruct (post_reply env p t); destruct H as (_ & Hdb & _)
  end; [|by rewrite Hdb].
  assert (a0 = a) as -> by congruence.
  apply (store_extends_trans _ (db w0)); [assumption|]. rewrite Hdb.
  apply (store_extends_insert _ _ st); [assumption|].
  split; [reflexivity|]. simpl. by eexists.
Qed.

(** X1. A worker never loses or rewrites a record: whatever its streams
    deliver and however often it restarts, every record of the store it
    started with is still stored afterwards, with the same creation time and
    with its wished years followed, if at all, by further years. *)
Theorem worker_extends_store (sub : string) (streams : list (list Pulse))
    (depth : nat) (w : World) :
  store_extends (db w)
    (db (run_with_exception_handling env sub streams depth w).2).
Proof.
  apply (keeps_run_with_exception_handling env
           (store_extends (db w))).
  - intros author w1 Hw1.
    eapply store_extends_trans; [exact Hw1|apply get_cakeday_status_extends].
  - intros post tnow w1 Hw1.
    eapply store_extends_trans; [exact Hw1|apply post_if_cakeday_extends].
  - apply store_extends_refl.
Qed.
End Extends.

(** ** No year is recorded twice *)

Lemma years_distinct_subset (d d' : gmap string Status.t) :
  (forall k st, d' !! k = Some st -> d !! k = Some st) ->
  years_distinct d -> years_distinct d'.
Proof. intros Hsub Hd k st Hst. eapply Hd, Hsub, Hst. Qed.

Lemma years_distinct_insert (d : gmap string Status.t) (k : string) (st : Status.t) :
  years_distinct d -> NoDup (Status.years_wished_cakeday st) ->
  years_distinct (<[k := st]> d).
Proof.
  intros Hd Hst k' st' Hk'. destruct (decide (k = k')) as [<-|Hne].
  - rewrite lookup_insert_eq in Hk'. by injection Hk' as <-.
  - rewrite lookup_insert_ne in Hk' by assumption. eauto.
Qed.

Lemma get_cakeday_status_distinct (author : option Redditor.t) :
  keeps years_distinct (get_cakeday_status author).
Proof.
  intros w Hw. destruct (get_cakeday_status author w) as [res w'] eqn:Hg.
  apply get_cakeday_status_inv in Hg as (_ & _ & _ & Hres).
  destruct res as [st|e]; simpl.
  - destruct Hres as (a & _ & _ & _ & [->|(_ & Hy & ->)]); [assumption|].
    apply years_distinct_insert; [assumption|]. rewrite Hy. constructor.
  - by destruct Hres as [-> _].
Qed.

Section StoreAndFeed.
Variable env : Environment.

Lemma post_if_cakeday_distinct (post : Post) (tnow : datetime) :
  keeps years_distinct (post_if_cakeday env post tnow).
Proof.
  intros w Hw. destruct (post_if_cakeday _ _ _ _) as [res w'] eqn:Hrun. simpl.
  apply post_if_cakeday_inv in Hrun.
  pose proof (get_cakeday_status_distinct (post_author post) w Hw) as Hw0.
  destruct (get_cakeday_status _ w) as [[st|e] w0] eqn:Hg; simpl in Hw0;
    [|by destruct Hrun as [_ ->]].
  apply get_cakeday_status_inv in Hg as (_ & _ & _ & a & Ha & Hst & _).
  inversion Hrun; subst; try assumption.
  subst text called.
  match goal with H : match post_reply env ?p ?t with _ => _ end |- _ =>
    destruct (post_reply env p t); destruct H as (_ & Hdb & _)
  end; rewrite Hdb; [|assumption].
  apply years_distinct_insert; [assumption|]. simpl.
  apply NoDup_app. split; [eapply Hw0, Hst|]. split; [|apply NoDup_singleton].
  intros y Hy ->%list_elem_of_singleton. contradiction.
Qed.

(** X2. No year is recorded twice: if no record of the store lists a year
    twice, none does after a worker has run, and none does after a purge. *)
Theorem years_stay_distinct (sub : string) (streams : list (list Pulse))
    (depth : nat) (tnow : datetime) (w : World) :
  years_distinct (db w) ->
  years_distinct
    (db (run_with_exception_handling env sub streams depth w).2)
  /\ years_distinct (db (remove_old_cakedays tnow w).2).
Proof.
  intros Hw. split.
  - apply (keeps_run_with_exception_handling env years_distinct);
      [apply get_cakeday_status_distinct|apply post_if_cakeday_distinct|assumption].
  - eapply years_distinct_subset; [|exact Hw].
    intros k st. unfold remove_old_cakedays.
    unfold mbind at 1, M_bind at 1, logger at 1, emit at 1.
    unfold mbind at 1, M_bind at 1, db_len at 1.
    unfold mbind at 1, M_bind at 1, logger at 1, emit at 1.
    unfold mbind at 1, M_bind at 1, db_items at 1. cbn [db trace entropy].
    unfold mbind at 1, M_bind at 1.
    match goal with |- context [scan_old_cakedays ?t ?i ?r ?w1] =>
      pose proof (scan_old_cakedays_world t i r w1) as Hscan;
      destruct (scan_old_cakedays t i r w1) as [[ks|e] w2]
    end; simpl in Hscan; subst w2; [|auto].
    unfold mbind at 1, M_bind at 1.
    match goal with |- context [for_each ks db_delitem ?w1] =>
      pose proof (for_each_delitem_lookup ks w1 k st) as Hdel;
      destruct (for_each ks db_delitem w1) as [[[]|e] w2]
    end; simpl in Hdel; exact Hdel.
Qed.

(** ** What the detectors do to the store and to the feed *)

(** X3. The thank-you detector records nothing: the years wished of every
    user are as before, and every record of the store is left as it was
    (the only change it can make is to file a first-seen author). *)
Theorem thank_you_records_nothing (post : Post) (tnow : datetime) (w : World) :
  let w' :=
    (post_if_response_to_cakeday_wish env post tnow w).2 in
  (forall u, years_wished (db w') u = years_wished (db w) u)
  /\ (forall k st, db w !! k = Some st -> db w' !! k = Some st).
Proof.
  cbv zeta.
  destruct (post_if_response_frame env post tnow w) as [_ ->].
  destruct (get_cakeday_status (post_author post) w) as [res w0] eqn:Hg. simpl.
  apply get_cakeday_status_inv in Hg as (_ & _ & Hyears & Hres).
  split; [assumption|]. intros k st Hst.
  destruct res as [st0|e].
  - destruct Hres as (a & _ & _ & _ & [->|(Hnone & _ & ->)]); [assumption|].
    rewrite lookup_insert_ne; [assumption|congruence].
  - by destruct Hres as [-> _].
Qed.

Lemma post_if_cakeday_replies (post : Post) (tnow : datetime) (w : World) :
  exists new,
    replies_of (trace (post_if_cakeday env post tnow w).2)
    = (replies_of (trace w) ++ new)%list
    /\ (new = [] \/ exists text, new = [(post, text)]).
Proof.
  destruct (post_if_cakeday _ _ _ _) as [res w'] eqn:Hrun. simpl.
  apply post_if_cakeday_inv in Hrun.
  destruct (get_cakeday_status _ w) as [[st|e] w0] eqn:Hg;
    apply get_cakeday_status_inv in Hg as (Htr & _).
  2:{ destruct Hrun as [_ ->]. exists []. rewrite Htr, app_nil_r. auto. }
  rewrite <- Htr.
  inversion Hrun; subst; try (exists []; rewrite app_nil_r; by auto).
  - exists []. simpl. rewrite replies_of_app, app_nil_r. simpl. rewrite app_nil_r. auto.
  - subst called. exists [(post, text)]. split; [|eauto].
    match goal with H : match post_reply env ?p ?t with _ => _ end |- _ =>
      destruct (post_reply env p t); destruct H as (_ & _ & ->)
    end; rewrite !replies_of_app; simpl; by rewrite ?app_nil_r.
Qed.

Lemma post_if_response_replies (post : Post) (tnow : datetime) (w : World) :
  exists new,
    replies_of (trace (post_if_response_to_cakeday_wish env
                         post tnow w).2)
    = (replies_of (trace w) ++ new)%list
    /\ (new = [] \/ exists text, new = [(post, text)]).
Proof.
  destruct (post_if_response_to_cakeday_wish _ _ _ _) as [res w'] eqn:Hrun.
  cbn [snd]. unfold post_if_response_to_cakeday_wish in Hrun.
  unfold mbind at 1, M_bind at 1 in Hrun.
  destruct (get_cakeday_status _ w) as [[st|e] w0] eqn:Hg;
    apply get_cakeday_status_inv in Hg as (Htr & _).
  { rewrite <- Htr. clear Htr.
    unfold reply, random_choice in Hrun. unfold_monad.
    repeat match type of Hrun with
    | context [match ?scrutinee with _ => _ end] =>
        is_plain scrutinee; destruct scrutinee
    end; injection Hrun as <- <-; cbn [db trace]; rewrite ?replies_of_app;
      cbn [replies_of]; rewrite ?app_nil_r;
      first [ exists []; rewrite app_nil_r; split; [reflexivity|by left]
            | eexists; split; [reflexivity|right; by eexists] ]. }
  injection Hrun as <- <-. exists []. rewrite Htr, app_nil_r. auto.
Qed.

(** X4. In one turn of the loop every call of [post.reply] is a reply to
    the post of that turn, and there are at most two: the wish and the
    acknowledgment.  The idle marker is never replied to. *)
Theorem turn_replies_to_its_post (sub : string) (post : option Post)
    (tnow : datetime) (w : World) :
  exists new,
    replies_of (trace (run_item env sub post tnow w).2)
    = (replies_of (trace w) ++ new)%list
    /\ (length new <= 2)%nat
    /\ Forall (fun r => post = Some r.1) new.
Proof.
  assert (Hnone : forall w1 : World, replies_of (trace w1) = replies_of (trace w) ->
            exists new, replies_of (trace w1) = (replies_of (trace w) ++ new)%list
              /\ (length new <= 2)%nat /\ Forall (fun r => post = Some r.1) new).
  { intros w1 ->. exists []. rewrite app_nil_r. repeat split; [simpl; lia|constructor]. }
  unfold run_item. unfold mbind at 1, M_bind at 1.
  match goal with |- context [let (r, w') := ?m w in _] =>
    assert (Hpause : exists w1, m w = (Ok tt, w1)
              /\ replies_of (trace w1) = replies_of (trace w))
  end.
  { destruct ((hour tnow =? 23) && (45 <? minute tnow)); unfold_monad;
      (eexists; split; [reflexivity|]); [|reflexivity].
    simpl. rewrite !replies_of_app. simpl. by rewrite !app_nil_r. }
  destruct Hpause as (w1 & -> & Hw1).
  destruct post as [post|]; [|by apply Hnone].
  destruct (suspended (post_author post)).
  { apply Hnone. unfold_monad. simpl. rewrite replies_of_app. simpl.
    by rewrite app_nil_r. }
  unfold mbind at 1, M_bind at 1, lift at 1.
  destruct (utcfromtimestamp _) as [time_posted|e]; [|by apply Hnone].
  unfold mbind at 1, M_bind at 1, logger at 1, emit at 1.
  assert (Hlog : forall m, replies_of (trace w1 ++ [Log DEBUG m]) = replies_of (trace w)).
  { intros m. rewrite replies_of_app. simpl. by rewrite app_nil_r. }
  destruct (negb _); [by apply Hnone; simpl|].
  destruct (post_author post); [|by apply Hnone; simpl].
  unfold mbind at 1, M_bind at 1.
  match goal with |- context [post_if_cakeday env post tnow ?w2] =>
    destruct (post_if_cakeday_replies post tnow w2) as (new1 & Hcake & Hnew1);
    destruct (post_if_cakeday env post tnow w2) as [[[]|e] w3]
  end; simpl in Hcake; rewrite Hlog in Hcake.
  - destruct (post_if_response_replies post tnow w3) as (new2 & Hthank & Hnew2).
    exists (new1 ++ new2)%list. rewrite Hthank, Hcake, app_assoc.
    split; [reflexivity|]. rewrite length_app, Forall_app.
    destruct Hnew1 as [->|[t1 ->]], Hnew2 as [->|[t2 ->]]; simpl;
      repeat split; try lia; repeat constructor.
  - exists new1. split; [exact Hcake|].
    destruct Hnew1 as [->|[t1 ->]]; simpl; repeat split; try lia; repeat constructor.
Qed.
(** X5. A turn the loop passes over (the idle marker, a suspended or
    deleted author, a post not created today) leaves the store as it is and
    calls [post.reply] for nothing, whether it returns or raises. *)
Theorem skipped_turn_is_inert (sub : string) (post : option Post) (tnow : datetime)
    (w : World) :
  turn_skipped post tnow ->
  let w' := (run_item env sub post tnow w).2 in
  db w' = db w /\ replies_of (trace w') = replies_of (trace w).
Proof.
  intros Hskip. cbv zeta.
  destruct (run_item _ _ _ _ _) as [res w'] eqn:Hrun. cbn [snd].
  unfold run_item in Hrun. unfold mbind at 1, M_bind at 1 in Hrun.
  match type of Hrun with context [let (r, w') := ?m w in _] =>
    assert (Hpause : exists w1, m w = (Ok tt, w1) /\ db w1 = db w
              /\ replies_of (trace w1) = replies_of (trace w))
  end.
  { destruct ((hour tnow =? 23) && (45 <? minute tnow)); unfold_monad;
      (eexists; split; [reflexivity|]); [|by split].
    simpl. rewrite !replies_of_app. simpl. by rewrite !app_nil_r. }
  destruct Hpause as (w1 & Hw1 & Hdb & Htr). rewrite Hw1 in Hrun. clear Hw1.
  assert (Hinert : forall (r : result unit) (w2 : World),
            (r, w2) = (res, w') ->
            db w2 = db w1 ->
            trace w2 = trace w1
            \/ (exists l m, trace w2 = (trace w1 ++ [Log l m])%list) ->
            db w' = db w /\ replies_of (trace w') = replies_of (trace w)).
  { intros r w2 [= <- <-] -> [->|(l & m & ->)]; split; auto.
    rewrite replies_of_app. simpl. by rewrite app_nil_r. }
  destruct post as [post|]; [|eapply Hinert; eauto].
  destruct (suspended (post_author post)) eqn:Hsusp;
    [eapply Hinert; [exact Hrun|reflexivity|simpl; eauto]|].
  unfold mbind at 1, M_bind at 1, lift at 1 in Hrun.
  destruct (utcfromtimestamp _) as [time_posted|e] eqn:Htime;
    [|eapply Hinert; eauto].
  unfold mbind at 1, M_bind at 1, logger at 1, emit at 1 in Hrun.
  destruct (date_eqb _ _) eqn:Hdate; cbn [negb] in Hrun;
    [|eapply Hinert; [exact Hrun|reflexivity|simpl; eauto]].
  destruct (post_author post) eqn:Hauthor;
    [|eapply Hinert; [exact Hrun|reflexivity|simpl; eauto]].
  apply date_eqb_eq in Hdate.
  destruct Hskip as [?|[?|Hstale]]; [congruence..|].
  by apply Hstale in Hdate.
Qed.

(** X6. Every wish names the age of the account: when the cake-day
    detector replies, the creation year of the author is not the year of
    [tnow], the age is the difference of the two years, and the text is
    "Happy ", the ordinal of the age with a caret before its last two
    characters, " cake day! " and one of the three emojis.  For an age of at
    least 1 that is "Happy <age>^<suffix> cake day! <emoji>", with the
    two-letter suffix of the ordinal. *)
Theorem wish_names_the_age (post : Post) (tnow : datetime) (w : World)
    (text : string) :
  replies_of (trace (post_if_cakeday env post tnow w).2)
  = (replies_of (trace w) ++ [(post, text)])%list ->
  exists a c age_ordinal emoji,
    post_author post = Some a
    /\ utcfromtimestamp (Redditor.created_utc a) = Ok c
    /\ let age := year tnow - year c in
       age <> 0
       /\ ordinal (ordinal_negative env) age = Ok age_ordinal
       /\ emoji ∈ cakeday_emojis
       /\ text = "Happy "
                 +:+ (slice_to_minus2 age_ordinal +:+ "^" +:+ slice_from_minus2 age_ordinal)
                 +:+ " cake day! " +:+ emoji
       /\ (1 <= age ->
           exists suffix,
             String.length suffix = 2%nat
             /\ age_ordinal = str_of_int age +:+ suffix
             /\ text = "Happy " +:+ (str_of_int age +:+ "^" +:+ suffix)
                       +:+ " cake day! " +:+ emoji).
Proof.
  destruct (post_if_cakeday _ _ _ _) as [res w'] eqn:Hrun. simpl.
  apply post_if_cakeday_inv in Hrun.
  destruct (get_cakeday_status _ w) as [[st|e] w0] eqn:Hg.
  2:{ apply get_cakeday_status_inv in Hg as (Htr & _).
      destruct Hrun as [_ ->]. rewrite Htr. intros Hno. by apply no_new_reply in Hno. }
  apply get_cakeday_status_inv in Hg as (Htr & _ & _ & a & Ha & _ & Hcr & _).
  rewrite <- Htr.
  inversion Hrun; subst; try (intros Hno; by apply no_new_reply in Hno).
  - simpl. rewrite replies_of_app. simpl. rewrite app_nil_r.
    intros Hno. by apply no_new_reply in Hno.
  - subst called. intros Hsent.
    assert (Htext : text = text0).
    { match goal with H : match post_reply env ?p ?t with _ => _ end |- _ =>
        destruct (post_reply env p t); destruct H as (_ & _ & Htr')
      end; rewrite Htr', !replies_of_app in Hsent; simpl in Hsent;
        rewrite ?app_nil_r in Hsent; by apply app_inv_head in Hsent as [= <-]. }
    subst text text0.
    exists a, c, age_ordinal, emoji. rewrite <- Hcr.
    split; [assumption|]. split; [assumption|]. cbv zeta.
    split; [lia|]. split; [assumption|]. split; [assumption|].
    split; [reflexivity|]. intros Hage.
    destruct (ordinal_nonneg (ordinal_negative env) (year tnow - year c))
      as (suffix & Ho & Hlen & _); [lia|].
    assert (age_ordinal = str_of_int (year tnow - year c) +:+ suffix) as ->
      by congruence.
    destruct (slice_ordinal (str_of_int (year tnow - year c)) suffix Hlen) as [-> ->].
    exists suffix. auto.
Qed.

Lemma failed_wish (post : Post) (tnow : datetime) (w : World) (a : Redditor.t)
    (st : Status.t) (c : datetime) (e : exn) :
  valid_datetime tnow ->
  post_author post = Some a ->
  db w !! Redditor.name a = Some st ->
  Status.created_utc st = Redditor.created_utc a ->
  utcfromtimestamp (Status.created_utc st) = Ok c ->
  year c < year tnow ->
  year tnow ∉ Status.years_wished_cakeday st ->
  (day c, month c) = (day tnow, month tnow) ->
  (forall text, post_reply env post text = Raise e) ->
  exists text w',
    post_if_cakeday env post tnow w = (Raise e, w')
    /\ db w' = db w
    /\ replies_of (trace w') = (replies_of (trace w) ++ [(post, text)])%list.
Proof.
  intros Hv Ha Hst Hcr Hc Hlt Hy Hdm Hfail.
  apply (anniversary_is_day_and_month c tnow Hv) in Hdm as (c1 & Hr & Hd).
  destruct (ordinal_nonneg (ordinal_negative env) (year tnow - year c))
    as (suffix & Ho & _); [lia|].
  destruct (post_if_cakeday _ _ _ _) as [res w'] eqn:Hrun.
  apply post_if_cakeday_inv in Hrun.
  rewrite Ha, (get_cakeday_status_found _ _ _ Hst), <- Hcr, Z.eqb_refl in Hrun.
  inversion Hrun; subst; try congruence;
    (assert (c0 = c) as -> by congruence); try congruence; try lia.
  subst called. rewrite Hfail in *.
  match goal with H : _ = Raise e /\ _ |- _ => destruct H as (-> & Hdb & Htr) end.
  exists text, w'. split; [reflexivity|]. split; [assumption|].
  rewrite Htr, !replies_of_app. simpl. by rewrite ?app_nil_r.
Qed.

(** X7. A wish is recorded only after [post.reply] has returned: when the
    posting action raises on a due wish, the call of [post.reply] has been
    made, the exception leaves the detector, and the store is as before, with
    the year not recorded; the same post delivered again calls [post.reply]
    again. *)
Theorem failed_wish_is_not_recorded (post : Post) (tnow : datetime) (w : World)
    (a : Redditor.t) (st : Status.t) (c : datetime) (e : exn) :
  valid_datetime tnow ->
  post_author post = Some a ->
  db w !! Redditor.name a = Some st ->
  Status.created_utc st = Redditor.created_utc a ->
  utcfromtimestamp (Status.created_utc st) = Ok c ->
  year c < year tnow ->
  year tnow ∉ Status.years_wished_cakeday st ->
  (day c, month c) = (day tnow, month tnow) ->
  (forall text, post_reply env post text = Raise e) ->
  exists text1 text2 w1 w2,
    post_if_cakeday env post tnow w = (Raise e, w1)
    /\ db w1 = db w
    /\ post_if_cakeday env post tnow w1 = (Raise e, w2)
    /\ db w2 = db w
    /\ replies_of (trace w2)
       = (replies_of (trace w) ++ [(post, text1); (post, text2)])%list.
Proof.
  intros Hv Ha Hst Hcr Hc Hlt Hy Hdm Hfail.
  destruct (failed_wish post tnow w a st c e) as (text1 & w1 & Hrun1 & Hdb1 & Htr1);
    try assumption.
  destruct (failed_wish post tnow w1 a st c e) as (text2 & w2 & Hrun2 & Hdb2 & Htr2);
    try assumption; [by rewrite Hdb1|].
  exists text1, text2, w1, w2. rewrite Hdb2, Htr2, Htr1, <- app_assoc. auto.
Qed.

(** X8. A first sight files the author: after the cake-day detector has
    handled a post of an author without a record, the store holds a record
    under the author's name with the creation time observed, whether a wish
    was due or not and whether the call returned or raised. *)
Theorem first_sight_files_the_author (post : Post) (tnow : datetime) (w : World)
    (a : Redditor.t) :
  post_author post = Some a ->
  db w !! Redditor.name a = None ->
  exists st,
    db (post_if_cakeday env post tnow w).2 !! Redditor.name a = Some st
    /\ Status.created_utc st = Redditor.created_utc a
    /\ (Status.years_wished_cakeday st = []
        \/ Status.years_wished_cakeday st = [year tnow]).
Proof.
  intros Ha Hnone.
  destruct (post_if_cakeday _ _ _ _) as [res w'] eqn:Hrun. simpl.
  apply post_if_cakeday_inv in Hrun.
  rewrite Ha, (get_cakeday_status_new _ _ Hnone) in Hrun.
  set (st0 := Status.mk (Redditor.created_utc a) []) in *.
  assert (Hst0 : forall w0 : World,
            db w0 = <[Redditor.name a := st0]> (db w) ->
            exists st, db w0 !! Redditor.name a = Some st
              /\ Status.created_utc st = Redditor.created_utc a
              /\ (Status.years_wished_cakeday st = []
                  \/ Status.years_wished_cakeday st = [year tnow])).
  { intros w0 ->. exists st0. rewrite lookup_insert_eq. auto. }
  inversion Hrun; subst; try (by apply Hst0).
  subst called.
  match goal with H : match post_reply env ?p ?t with _ => _ end |- _ =>
    destruct (post_reply env p t); destruct H as (_ & Hdb & _)
  end; [|by apply Hst0].
  assert (a0 = a) as -> by congruence.
  eexists. rewrite Hdb, lookup_insert_eq. split; [reflexivity|]. simpl. auto.
Qed.
End StoreAndFeed.

(** ** The purge, beyond representable stores *)

Lemma utcfromtimestamp_raises (t : Z) (e : exn) :
  utcfromtimestamp t = Raise e -> e = TimestampError t.
Proof.
  unfold utcfromtimestamp. destruct (_ord2ymd _) as [[y m] d].
  destruct (_ && _); [discriminate|]. by intros [= <-].
Qed.

(** The scan stops at the first record whose creation time cannot be
    represented, with the exception of [utcfromtimestamp]. *)
Lemma scan_old_cakedays_fails (today_dm : Z * Z) (items : list (string * Status.t))
    (to_remove : list string) (w : World) :
  ~ Forall (fun kv => is_Some (created_dm kv.2)) items ->
  exists k st,
    (k, st) ∈ items /\ created_dm st = None
    /\ scan_old_cakedays today_dm items to_remove w
       = (Raise (TimestampError (Status.created_utc st)), w).
Proof.
  revert to_remove. induction items as [|[k st] items IH]; intros to_remove Hnot.
  - destruct Hnot. constructor.
  - cbn [scan_old_cakedays]. unfold mbind at 1, M_bind at 1, lift at 1.
    destruct (utcfromtimestamp (Status.created_utc st)) as [t|e] eqn:Ht.
    + assert (Hrest : ~ Forall (fun kv => is_Some (created_dm kv.2)) items).
      { intros Hall. apply Hnot. constructor; [|assumption].
        simpl. unfold created_dm. rewrite Ht. by eexists. }
      destruct (decide _);
        [destruct (IH (to_remove ++ [k])%list Hrest) as (k' & st' & Hin & Hdm & ->)
        |destruct (IH to_remove Hrest) as (k' & st' & Hin & Hdm & ->)];
        exists k', st'; (split; [by apply list_elem_of_further|]); auto.
    + exists k, st. split; [apply list_elem_of_here|].
      split; [unfold created_dm; by rewrite Ht|].
      by rewrite (utcfromtimestamp_raises _ _ Ht).
Qed.

Lemma timestamps_representable_items (d : gmap string Status.t) :
  timestamps_representable d
  <-> Forall (fun kv => is_Some (created_dm kv.2)) (map_to_list d).
Proof.
  rewrite Forall_forall. split.
  - intros Hd [k st] Hin%elem_of_map_to_list. eapply Hd, Hin.
  - intros Hall k st Hst. by apply (Hall (k, st)), elem_of_map_to_list.
Qed.

Lemma remove_old_cakedays_ok (tnow : datetime) (w : World) :
  timestamps_representable (db w) ->
  exists w',
    remove_old_cakedays tnow w = (Ok tt, w')
    /\ forall k st, db w' !! k = Some st <->
         db w !! k = Some st /\ created_dm st = Some (day tnow, month tnow).
Proof.
  intros Hrep%timestamps_representable_items. unfold remove_old_cakedays.
  unfold mbind at 1, M_bind at 1, logger at 1, emit at 1.
  unfold mbind at 1, M_bind at 1, db_len at 1.
  unfold mbind at 1, M_bind at 1, logger at 1, emit at 1.
  unfold mbind at 1, M_bind at 1, db_items at 1.
  cbn [db trace entropy].
  set (today_dm := (day tnow, month tnow)).
  set (w1 := mkWorld (db w) _ (entropy w)).
  destruct (scan_old_cakedays_spec today_dm (map_to_list (db w)) [] w1 Hrep)
    as (ks & Hscan & Hks & Hnd).
  unfold mbind at 1, M_bind at 1. rewrite Hscan. cbn [app].
  assert (Hin : forall k, k ∈ ks <->
            exists st, db w !! k = Some st /\ created_dm st <> Some today_dm).
  { intros k. rewrite Hks. split; intros (st & Hst & Hne); exists st;
      (split; [by apply elem_of_map_to_list|assumption]). }
  destruct (for_each_delitem ks w1) as (w2 & Hdel & _ & _ & Hdb).
  { apply Hnd, NoDup_fst_map_to_list. }
  { intros k (st & Hst & _)%Hin. by exists st. }
  unfold mbind at 1, M_bind at 1. rewrite Hdel.
  unfold mbind at 1, M_bind at 1, db_len at 1.
  unfold logger, emit. eexists. split; [reflexivity|]. cbn [db].
  intros k st. rewrite Hdb. cbn [db w1].
  destruct (decide (k ∈ ks)) as [Hk|Hk].
  - split; [discriminate|]. intros [Hst Hdm].
    apply Hin in Hk as (st' & Hst' & Hne). congruence.
  - split; [|tauto]. intros Hst. split; [assumption|].
    destruct (decide (created_dm st = Some today_dm)) as [|Hne]; [assumption|].
    exfalso. apply Hk, Hin. eauto.
Qed.

(** X9. The purge removes all it should or nothing: it returns when every
    stored creation time can be represented, and otherwise the scan raises
    the exception of [utcfromtimestamp] for a stored creation time that
    cannot, before the first deletion, the store left as it was. *)
Theorem purge_all_or_nothing (tnow : datetime) (w : World) :
  (timestamps_representable (db w)
   /\ exists w', remove_old_cakedays tnow w = (Ok tt, w'))
  \/ (~ timestamps_representable (db w)
      /\ exists k st w',
           db w !! k = Some st
           /\ created_dm st = None
           /\ remove_old_cakedays tnow w
              = (Raise (TimestampError (Status.created_utc st)), w')
           /\ db w' = db w).
Proof.
  destruct (decide (Forall (fun kv => is_Some (created_dm kv.2))
                           (map_to_list (db w)))) as [Hall|Hnot].
  - left. apply timestamps_representable_items in Hall.
    split; [assumption|].
    destruct (remove_old_cakedays_ok tnow w Hall) as (w' & Hrun & _). eauto.
  - right. split; [by rewrite timestamps_representable_items|].
    unfold remove_old_cakedays.
    unfold mbind at 1, M_bind at 1, logger at 1, emit at 1.
    unfold mbind at 1, M_bind at 1, db_len at 1.
    unfold mbind at 1, M_bind at 1, logger at 1, emit at 1.
    unfold mbind at 1, M_bind at 1, db_items at 1.
    cbn [db trace entropy].
    unfold mbind at 1, M_bind at 1.
    match goal with |- context [scan_old_cakedays ?t ?i ?r ?w1] =>
      destruct (scan_old_cakedays_fails t i r w1 Hnot) as (k & st & Hin & Hdm & ->)
    end.
    exists k, st. eexists. split; [by apply elem_of_map_to_list|].
    split; [assumption|]. split; reflexivity.
Qed.

(** X10. Purging twice on the same day is purging once: on a representable
    store a second purge with the same date removes nothing more, and a
    purge never leaves more records than it found. *)
Theorem purge_is_idempotent (tnow : datetime) (w : World) :
  timestamps_representable (db w) ->
  let w1 := (remove_old_cakedays tnow w).2 in
  db (remove_old_cakedays tnow w1).2 = db w1
  /\ (size (db w1) <= size (db w))%nat.
Proof.
  intros Hrep. cbv zeta.
  destruct (remove_old_cakedays_ok tnow w Hrep) as (w1 & -> & Hw1). cbn [snd].
  assert (Hrep1 : timestamps_representable (db w1)).
  { intros k st Hst%Hw1. eapply Hrep, Hst. }
  destruct (remove_old_cakedays_ok tnow w1 Hrep1) as (w2 & -> & Hw2). cbn [snd].
  split.
  - apply map_eq. intros k. apply option_eq. intros st.
    rewrite Hw2. split; [tauto|]. intros Hst. split; [assumption|].
    by apply Hw1 in Hst as [_ ?].
  - apply map_subseteq_size, map_subseteq_spec. intros k st Hst%Hw1. tauto.
Qed.

(** ** The wrapper, the feed and the loop *)

Section Loop.
Variable env : Environment.

(** X11. No [Exception] escapes the recovery wrapper: for all streams and
    at any depth, [run_with_exception_handling] returns or raises
    [KeyboardInterrupt], whatever the worker loops raise. *)
Theorem only_KeyboardInterrupt_escapes (sub : string) (streams : list (list Pulse))
    (depth : nat) (w : World) :
  let outcome :=
    (run_with_exception_handling env sub streams depth w).1 in
  outcome = Ok tt \/ outcome = Raise KeyboardInterrupt.
Proof.
  cbv zeta.
  destruct (run_with_exception_handling _ _ _ _ _) as [[[]|e] w'] eqn:Hrun;
    [by left|right]. simpl.
  apply wrapper_raises in Hrun. destruct e; try discriminate. reflexivity.
Qed.

Lemma for_each_app {A} (l1 l2 : list A) (body : A -> M unit) (w : World) :
  for_each (l1 ++ l2) body w
  = match for_each l1 body w with
    | (Ok _, w1) => for_each l2 body w1
    | (Raise e, w1) => (Raise e, w1)
    end.
Proof.
  revert w. induction l1 as [|x l1 IH]; intros w; [reflexivity|].
  cbn [app for_each]. unfold mbind, M_bind.
  destruct (body x w) as [[[]|e] w1]; [apply IH|reflexivity].
Qed.

(** X12. The loop of [run] ends with the first turn that raises: what the
    stream would deliver afterwards is not processed. *)
Theorem run_stops_at_first_failure (sub : string) (stream later : list Pulse)
    (w w1 : World) (e : exn) :
  run env sub stream w = (Raise e, w1) ->
  run env sub (stream ++ later) w = (Raise e, w1).
Proof.
  unfold run. unfold mbind, M_bind, logger, emit.
  rewrite for_each_app. by intros ->.
Qed.
End Loop.

Lemma insert_reverse_head {A} (key : A -> Z) (x : A) (l : list A) :
  Forall (descending key x) l -> insert_reverse key x l = x :: l.
Proof.
  intros Hx. destruct l as [|y l]; [reflexivity|]. simpl.
  inversion Hx as [|? ? Hy _]; subst. unfold descending in Hy.
  destruct (Z.ltb_spec (key x) (key y)); [lia|reflexivity].
Qed.

Lemma sort_reverse_sorted_id {A} (key : A -> Z) (l : list A) :
  StronglySorted (descending key) l -> sort_reverse key l = l.
Proof.
  induction 1 as [|x l Hl IH Hx]; [reflexivity|].
  simpl. rewrite IH. by apply insert_reverse_head.
Qed.

(** X13. Feeds that arrive in order are not rearranged: when the
    submissions followed by the comments are already in descending order of
    creation time, the batch is that very list. *)
Theorem ordered_feeds_are_kept (new comments : list Post) :
  StronglySorted (descending post_created_utc) (new ++ comments)%list ->
  submissions_and_comments new comments = (new ++ comments)%list.
Proof.
  intros Hsorted. unfold submissions_and_comments. cbn [app].
  by apply sort_reverse_sorted_id.
Qed.

(** ** Recorded years are anniversaries *)

Lemma remove_old_cakedays_lookup (tnow : datetime) (w : World) (k : string)
    (st : Status.t) :
  db (remove_old_cakedays tnow w).2 !! k = Some st -> db w !! k = Some st.
Proof.
  unfold remove_old_cakedays.
  unfold mbind at 1, M_bind at 1, logger at 1, emit at 1.
  unfold mbind at 1, M_bind at 1, db_len at 1.
  unfold mbind at 1, M_bind at 1, logger at 1, emit at 1.
  unfold mbind at 1, M_bind at 1, db_items at 1. cbn [db trace entropy].
  unfold mbind at 1, M_bind at 1.
  match goal with |- context [scan_old_cakedays ?t ?i ?r ?w1] =>
    pose proof (scan_old_cakedays_world t i r w1) as Hscan;
    destruct (scan_old_cakedays t i r w1) as [[ks|e] w2]
  end; simpl in Hscan; subst w2; [|auto].
  unfold mbind at 1, M_bind at 1.
  match goal with |- context [for_each ks db_delitem ?w1] =>
    pose proof (for_each_delitem_lookup ks w1 k st) as Hdel;
    destruct (for_each ks db_delitem w1) as [[[]|e] w2]
  end; simpl in Hdel; exact Hdel.
Qed.

Lemma years_are_anniversaries_insert (d : gmap string Status.t) (k : string)
    (st : Status.t) :
  years_are_anniversaries d ->
  (forall y, y ∈ Status.years_wished_cakeday st ->
     exists c c', utcfromtimestamp (Status.created_utc st) = Ok c
                  /\ year c <> y /\ replace_year c y = Ok c') ->
  years_are_anniversaries (<[k := st]> d).
Proof.
  intros Hd Hst k' st' y Hk' Hy. destruct (decide (k = k')) as [<-|Hne].
  - rewrite lookup_insert_eq in Hk'. injection Hk' as <-. auto.
  - rewrite lookup_insert_ne in Hk' by assumption. eauto.
Qed.

Lemma get_cakeday_status_anniversaries (author : option Redditor.t) :
  keeps years_are_anniversaries (get_cakeday_status author).
Proof.
  intros w Hw. destruct (get_cakeday_status author w) as [res w'] eqn:Hg.
  apply get_cakeday_status_inv in Hg as (_ & _ & _ & Hres).
  destruct res as [st|e]; simpl.
  - destruct Hres as (a & _ & _ & _ & [->|(_ & Hy & ->)]); [assumption|].
    apply years_are_anniversaries_insert; [assumption|].
    intros y. rewrite Hy. intros Hin. by apply elem_of_nil in Hin.
  - by destruct Hres as [-> _].
Qed.

Section Anniversaries.
Variable env : Environment.

Lemma post_if_cakeday_anniversaries (post : Post) (tnow : datetime) :
  keeps years_are_anniversaries (post_if_cakeday env post tnow).
Proof.
  intros w Hw. destruct (post_if_cakeday _ _ _ _) as [res w'] eqn:Hrun. simpl.
  apply post_if_cakeday_inv in Hrun.
  pose proof (get_cakeday_status_anniversaries (post_author post) w Hw) as Hw0.
  destruct (get_cakeday_status _ w) as [[st|e] w0] eqn:Hg; simpl in Hw0;
    [|by destruct Hrun as [_ ->]].
  apply get_cakeday_status_inv in Hg as (_ & _ & _ & a & Ha & Hst & _).
  inversion Hrun; subst; try assumption.
  subst text called.
  match goal with H : match post_reply env ?p ?t with _ => _ end |- _ =>
    destruct (post_reply env p t); destruct H as (_ & Hdb & _)
  end; rewrite Hdb; [|assumption].
  apply years_are_anniversaries_insert; [assumption|]. simpl.
  intros y [Hy|Hy%list_elem_of_singleton]%elem_of_app.
  - eapply Hw0; eauto.
  - subst y. eauto.
Qed.

(** X14. Only anniversaries are recorded: if every year recorded in the
    store is a year other than the creation year in which the creation date
    exists, the same holds after a worker has run and after a purge. *)
Theorem recorded_years_are_anniversaries (sub : string) (streams : list (list Pulse))
    (depth : nat) (tnow : datetime) (w : World) :
  years_are_anniversaries (db w) ->
  years_are_anniversaries
    (db (run_with_exception_handling env sub streams depth w).2)
  /\ years_are_anniversaries (db (remove_old_cakedays tnow w).2).
Proof.
  intros Hw. split.
  - apply (keeps_run_with_exception_handling env
             years_are_anniversaries);
      [apply get_cakeday_status_anniversaries|apply post_if_cakeday_anniversaries
      |assumption].
  - intros k st y Hst Hy. apply remove_old_cakedays_lookup in Hst. eapply Hw; eauto.
Qed.

(** X15. A thank-you directly under a submission of the bot raises: for a
    comment of an author on the anniversary date, saying thank with a
    positive sentiment, whose parent is a submission by CaDaBot, the
    thank-you detector raises [AttributeError] at [parent.parent()] and calls
    [post.reply] for nothing. *)
Theorem thank_you_under_bot_submission (tnow : datetime) (w : World)
    (a : Redditor.t) (ts pts : Z) (body : string) (pauthor : option Redditor.t)
    (replies : list (option Redditor.t)) :
  let post := Comment (Some a) ts body (Submission pauthor pts) replies in
  record_consistent (db w) (Some a) ->
  anniversary_is_today post tnow ->
  says_thank env post ->
  sentiment_positive env post ->
  redditor_eq_str (str_lower env) pauthor "CaDaBot" = true ->
  let outcome :=
    post_if_response_to_cakeday_wish env post tnow w in
  outcome.1 = Raise AttributeError
  /\ replies_of (trace outcome.2) = replies_of (trace w).
Proof.
  intros post Hcons Hday (b1 & [= <-] & Hthank) (b2 & [= <-] & Hpos & Hneg) Hbot.
  cbv zeta.
  destruct (post_if_response_to_cakeday_wish _ _ _ _) as [res w'] eqn:Hrun.
  cbn [fst snd]. subst post.
  unfold post_if_response_to_cakeday_wish in Hrun.
  unfold mbind at 1, M_bind at 1 in Hrun. cbn [post_author] in Hrun.
  destruct (get_cakeday_status_consistent w a Hcons) as (st & w0 & Hg & Hcr & Htr).
  rewrite Hg, Hcr in Hrun.
  unfold anniversary_is_today, anniversary_date in Hday. cbn [post_author] in Hday.
  unfold mbind at 1, M_bind at 1, lift at 1 in Hrun.
  destruct (utcfromtimestamp _) as [c|e]; [|discriminate].
  unfold mbind at 1, M_bind at 1, lift at 1 in Hrun.
  destruct (replace_year _ _) as [c'|e]; [|discriminate].
  assert (Hd : date_eqb (date c') (date tnow) = true)
    by (apply date_eqb_eq; congruence).
  rewrite Hd, Hthank, Hpos, Hneg in Hrun. cbn [negb andb post_author] in Hrun.
  rewrite Hbot in Hrun. cbn [negb] in Hrun.
  injection Hrun as <- <-. by rewrite Htr.
Qed.
End Anniversaries.

(** ** The further properties at sample inputs *)

(** A worker that wishes alice leaves her years distinct. *)
Lemma years_stay_distinct_witness :
  years_distinct
    (db (run_with_exception_handling Sample.env "cakeday"
           [[Yield (Some (Sample.submission Sample.alice)) Sample.now]] 1
           (Sample.world Sample.alice_unwished)).2).
Proof.
  refine (proj1 (years_stay_distinct Sample.env "cakeday"
                   [[Yield (Some (Sample.submission Sample.alice)) Sample.now]] 1
                   Sample.now (Sample.world Sample.alice_unwished) _)).
  intros k st Hst.
  unfold Sample.world, Sample.alice_unwished in Hst. cbn [db] in Hst.
  apply lookup_singleton_Some in Hst as [_ <-]. constructor.
Defined.

(** A post of 2024-03-14 met on 2023-03-01 is passed over. *)
Lemma skipped_turn_is_inert_witness :
  let w' := (run_item Sample.env "cakeday"
               (Some (Sample.submission Sample.alice)) Sample.common_year
               (Sample.world Sample.alice_unwished)).2 in
  db w' = Sample.alice_unwished /\ replies_of (trace w') = [].
Proof.
  apply (skipped_turn_is_inert Sample.env "cakeday"
           (Some (Sample.submission Sample.alice)) Sample.common_year
           (Sample.world Sample.alice_unwished)).
  right. right. intros time_posted [= <-]. simpl. discriminate.
Defined.

(** The wish to alice, created in 2015, names her 9th cake day in 2024. *)
Lemma wish_names_the_age_witness :
  exists a c age_ordinal emoji,
    post_author (Sample.submission Sample.alice) = Some a
    /\ utcfromtimestamp (Redditor.created_utc a) = Ok c
    /\ let age := year Sample.now - year c in
       age <> 0
       /\ ordinal (ordinal_negative Sample.env) age = Ok age_ordinal
       /\ emoji ∈ cakeday_emojis
       /\ "Happy 9^th cake day! 😄"
          = "Happy "
            +:+ (slice_to_minus2 age_ordinal +:+ "^" +:+ slice_from_minus2 age_ordinal)
            +:+ " cake day! " +:+ emoji
       /\ (1 <= age ->
           exists suffix,
             String.length suffix = 2%nat
             /\ age_ordinal = str_of_int age +:+ suffix
             /\ "Happy 9^th cake day! 😄"
                = "Happy " +:+ (str_of_int age +:+ "^" +:+ suffix)
                  +:+ " cake day! " +:+ emoji).
Proof.
  apply (wish_names_the_age Sample.env (Sample.submission Sample.alice)
           Sample.now (Sample.world Sample.alice_unwished)).
  reflexivity.
Defined.

(** With the posting action down, alice's wish is attempted at each
    delivery and never recorded. *)
Lemma failed_wish_is_not_recorded_witness :
  let post := Sample.submission Sample.alice in
  exists text1 text2 w1 w2,
    post_if_cakeday Sample.env_down post Sample.now (Sample.world Sample.alice_unwished)
    = (Raise (FeedError "503"), w1)
    /\ db w1 = Sample.alice_unwished
    /\ post_if_cakeday Sample.env_down post Sample.now w1 = (Raise (FeedError "503"), w2)
    /\ db w2 = Sample.alice_unwished
    /\ replies_of (trace w2) = [(post, text1); (post, text2)].
Proof.
  cbv zeta.
  apply (failed_wish_is_not_recorded
           Sample.env_down (Sample.submission Sample.alice)
           Sample.now (Sample.world Sample.alice_unwished) Sample.alice
           (Status.mk 1426327200 []) (mkdatetime 2015 3 14 10 0 0) (FeedError "503"));
    [reflexivity|reflexivity|reflexivity|reflexivity|reflexivity
    |simpl; lia|apply not_elem_of_nil|reflexivity|reflexivity].
Defined.

(** alice, seen for the first time on her cake day, is filed. *)
Lemma first_sight_files_the_author_witness :
  exists st,
    db (post_if_cakeday Sample.env (Sample.submission Sample.alice) Sample.now
          (Sample.world ∅)).2 !! "alice" = Some st
    /\ Status.created_utc st = 1426327200
    /\ (Status.years_wished_cakeday st = []
        \/ Status.years_wished_cakeday st = [2024]).
Proof.
  apply (first_sight_files_the_author Sample.env
           (Sample.submission Sample.alice) Sample.now (Sample.world ∅) Sample.alice);
    reflexivity.
Defined.

(** A second purge of the three records on March 14 changes nothing. *)
Lemma purge_is_idempotent_witness :
  let w1 := (remove_old_cakedays Sample.now (Sample.world Sample.three_records)).2 in
  db (remove_old_cakedays Sample.now w1).2 = db w1
  /\ (size (db w1) <= size Sample.three_records)%nat.
Proof.
  apply (purge_is_idempotent Sample.now (Sample.world Sample.three_records)).
  assert (Hall : map_Forall (fun _ st => is_Some (created_dm st)) Sample.three_records)
    by (unfold Sample.three_records;
        apply map_Forall_insert_2; [by eexists|];
        apply map_Forall_insert_2; [by eexists|];
        apply map_Forall_singleton; by eexists).
  intros k st Hst. exact (Hall k st Hst).
Defined.

(** After a feed failure the idle marker that follows is not looked at. *)
Lemma run_stops_at_first_failure_witness :
  run Sample.env "cakeday"
    ([Fault (FeedError "timeout")] ++ [Yield None Sample.now]) (Sample.world ∅)
  = (Raise (FeedError "timeout"), mkWorld ∅ [Log INFO (Running "cakeday")] []).
Proof.
  apply (run_stops_at_first_failure Sample.env "cakeday"
           [Fault (FeedError "timeout")] [Yield None Sample.now] (Sample.world ∅)).
  reflexivity.
Defined.

(** Two feeds in order come out as they went in. *)
Lemma ordered_feeds_are_kept_witness :
  submissions_and_comments
    [Submission None 50; Submission None 30] [Submission None 30; Submission None 10]
  = [Submission None 50; Submission None 30; Submission None 30; Submission None 10].
Proof.
  apply (ordered_feeds_are_kept
           [Submission None 50; Submission None 30]
           [Submission None 30; Submission None 10]).
  repeat constructor; unfold descending; simpl; lia.
Defined.

(** A worker that meets alice on her cake day records 2024 for her, the
    year of an anniversary of 2015-03-14. *)
Lemma recorded_years_are_anniversaries_witness :
  let d := db (run_with_exception_handling Sample.env "cakeday"
                 [[Yield (Some (Sample.submission Sample.alice)) Sample.now]] 1
                 (Sample.world Sample.alice_unwished)).2 in
  d !! "alice" = Some (Status.mk 1426327200 [2024])
  /\ years_are_anniversaries d.
Proof.
  cbv zeta. split; [reflexivity|].
  refine (proj1 (recorded_years_are_anniversaries Sample.env "cakeday"
                   [[Yield (Some (Sample.submission Sample.alice)) Sample.now]] 1
                   Sample.now (Sample.world Sample.alice_unwished) _)).
  intros k st y Hst Hy.
  unfold Sample.world, Sample.alice_unwished in Hst. cbn [db] in Hst.
  apply lookup_singleton_Some in Hst as [_ <-].
  by apply elem_of_nil in Hy.
Defined.

(** alice thanks under a submission of the bot on her cake day. *)
Lemma thank_you_under_bot_submission_witness :
  (post_if_response_to_cakeday_wish Sample.env
     (Comment (Some Sample.alice) 1710406200 "Thank you so much"
              (Submission (Some Sample.cadabot) 1710406000) [])
     Sample.now (Sample.world Sample.alice_unwished)).1
  = Raise AttributeError.
Proof.
  refine (proj1 (thank_you_under_bot_submission Sample.env Sample.now (Sample.world Sample.alice_unwished)
                   Sample.alice 1710406200 1710406000 "Thank you so much"
                   (Some Sample.cadabot) [] _ eq_refl _ _ eq_refl)).
  - intros a st [= <-] Hst. vm_compute in Hst. injection Hst as <-. reflexivity.
  - by exists "Thank you so much".
  - by exists "Thank you so much".
Defined.
